(** * rovio/HealthMonitor.hpp: the estimator health monitor

    A shallow embedding of [rovio::RovioHealthMonitor] and the properties
    of its reset decision and of the failsafe pose it retains.

    - C++ [float] and [double] are IEEE-754 binary32 and binary64 values,
      taken from the standard library's [SpecFloat] (the executable
      specification of floating-point arithmetic).
    - C++ [int] is a 32-bit two's-complement integer carried in [Z].
    - [std::vector<float>] is [list float]. *)

From Stdlib Require Import ZArith List Bool Lia PeanoNat Permutation Sorted.
From Stdlib Require Import Floats.SpecFloat.
From Stdlib Require Import QArith Qabs Qpower.
Import ListNotations.

Local Open Scope Z_scope.

(** ** IEEE-754 values *)

Module IEEE.

(** Both formats share the carrier [spec_float]; the format of a value
    is the format of the operation that produced it. *)
Abbreviation float := spec_float (only parsing).
Abbreviation double := spec_float (only parsing).

Definition prec32 : Z := 24.
Definition emax32 : Z := 128.
Definition prec64 : Z := 53.
Definition emax64 : Z := 1024.

(** Conversions.  [float -> double] is the usual arithmetic conversion
    applied when a [float] meets a [double] in a comparison (exact);
    [double -> float] is the narrowing initialisation of a [float] from
    a [double] (round to nearest, ties to even). *)
Definition float_to_double (f : float) : double :=
  match f with
  | S754_finite s m e => binary_round prec64 emax64 s m e
  | _ => f
  end.

Definition double_to_float (d : double) : float :=
  match d with
  | S754_finite s m e => binary_round prec32 emax32 s m e
  | _ => d
  end.

(** Integer literals. *)
Definition double_of_Z (z : Z) : double := binary_normalize prec64 emax64 z 0 false.
Definition float_of_Z (z : Z) : float := binary_normalize prec32 emax32 z 0 false.

(** Decimal literals [n/d] of type [double]: the nearest binary64 value. *)
Definition double_lit (n d : Z) : double :=
  SFdiv prec64 emax64 (double_of_Z n) (double_of_Z d).

Definition fzero : float := S754_zero false.

(** [float - float] and [std::abs(float)]. *)
Definition fsub (a b : float) : float := SFsub prec32 emax32 a b.
Definition fabs (a : float) : float := SFabs a.

(** Comparisons between values of one format. *)
Definition ltb (a b : spec_float) : bool := SFltb a b.
Definition leb (a b : spec_float) : bool := SFleb a b.
Definition gtb (a b : spec_float) : bool := SFltb b a.

(** [f > d] and [f < d] for [f : float], [d : double]: [f] is converted
    to [double] first. *)
Definition fd_gtb (f : float) (d : double) : bool := gtb (float_to_double f) d.
Definition fd_ltb (f : float) (d : double) : bool := ltb (float_to_double f) d.
Definition fd_leb (f : float) (d : double) : bool := leb (float_to_double f) d.

Definition is_nan (x : spec_float) : bool :=
  match x with S754_nan => true | _ => false end.

(** Neither below the other: equal as numbers (this identifies [+0]
    with [-0]). *)
Definition equiv (a b : spec_float) : Prop := SFcompare a b = Some Eq.

End IEEE.

Import IEEE.

(** ** C++ [int] *)

Module Int32.

Definition INT_MAX : Z := 2147483647.
Definition INT_MIN : Z := -2147483648.

Definition in_range (z : Z) : Prop := INT_MIN <= z <= INT_MAX.

(** Two's-complement reduction of a mathematical result to 32 bits. *)
Definition wrap (z : Z) : Z := (z + 2147483648) mod 4294967296 - 2147483648.

(** [++n] on an [int]: the counter has no guard against [INT_MAX], the
    overflow is written out as the wrap-around of the usual targets. *)
Definition incr (n : Z) : Z := wrap (n + 1).

End Int32.

(** ** [std::nth_element] and the median of the samples *)

Section NthElement.

(** [std::nth_element(first, nth, last)] is taken by its contract: it
    leaves a rearrangement in which no element before [nth] is above the
    one at [nth] and no element after it is below.  The contract supposes
    that [operator<] orders the elements; with a NaN among the samples it
    does not, the standard leaves the outcome open, and no property below
    rests on the rearrangement chosen here for such input.  For samples
    without NaN the model is the rearrangement produced by straight
    insertion with [operator<]: [nth_element_spec] shows that it meets the
    contract, and [order_statistic_unique] that the element at [nth] is
    the same number (up to the sign of a zero) in every rearrangement
    that does. *)
Fixpoint insert_by_lt (x : float) (v : list float) : list float :=
  match v with
  | [] => [x]
  | y :: t => if ltb x y then x :: y :: t else y :: insert_by_lt x t
  end.

Definition nth_element (nth : nat) (v : list float) : list float :=
  fold_right insert_by_lt [] v.

(** The result of [nth_element]: [v'] rearranges [v] and splits at
    position [nth] into [lo ++ m :: hi]. *)
Definition nth_element_post (nth : nat) (v v' : list float) : Prop :=
  Permutation v v' /\
  exists lo m hi,
    v' = lo ++ m :: hi /\ length lo = nth /\
    Forall (fun x => ltb m x = false) lo /\
    Forall (fun x => ltb x m = false) hi.

(** How many samples are strictly below / strictly above [m]. *)
Definition count_below (m : float) (v : list float) : nat :=
  length (filter (fun x => ltb x m) v).
Definition count_above (m : float) (v : list float) : nat :=
  length (filter (fun x => ltb m x) v).

(** [m] is the element of rank [k] (counting from 0) of [v] in
    ascending order: it occurs in [v], at most [k] samples are below it
    and at most [length v - 1 - k] are above it. *)
Definition order_statistic (k : nat) (v : list float) (m : float) : Prop :=
  In m v /\ (count_below m v <= k)%nat /\ (count_above m v + k < length v)%nat.

Definition no_nan (v : list float) : Prop := Forall (fun x => is_nan x = false) v.

(** Lines 84-92 of [shouldResetEstimator]: the value of the local
    [feature_pixel_cov_area_median]. *)
Definition feature_pixel_cov_area_median_of
           (feature_pixel_cov_area_in : list float) : float :=
  let feature_pixel_cov_area := feature_pixel_cov_area_in in
  match feature_pixel_cov_area with
  | [] => fzero
  | _ :: _ =>
      let middle_index := (length feature_pixel_cov_area / 2)%nat in
      nth middle_index (nth_element middle_index feature_pixel_cov_area) fzero
  end.

(** Ascending order in terms of [operator<]: [b] is not below [a]. *)
Definition not_above (a b : float) : Prop := ltb b a = false.

End NthElement.

(** ** Poses and the estimator output *)

(** [Eigen::Vector3d]: three [double] coefficients. *)
Record Vector3d := { coeff_x : double; coeff_y : double; coeff_z : double }.

Definition Vector3d_Zero : Vector3d :=
  {| coeff_x := S754_zero false; coeff_y := S754_zero false; coeff_z := S754_zero false |}.

(** [kindr::RotationQuaternionPD]: a quaternion with [double] coefficients. *)
Record RotationQuaternionPD := { q_w : double; q_x : double; q_y : double; q_z : double }.

Definition RotationQuaternionPD_identity : RotationQuaternionPD :=
  {| q_w := double_of_Z 1; q_x := S754_zero false;
     q_y := S754_zero false; q_z := S754_zero false |}.

(** Modelled from the spec: the class [StandardOutput] of
    rovio/CoordinateTransform/RovioOutput.hpp is not part of the sources at
    hand.  The spec's EstimatorSnapshot gives what the monitor reads from
    it: the world-frame position [WrWB()], the body-frame velocity [BvB()]
    and the world-to-body orientation [qBW()]. *)
Record StandardOutput := {
  WrWB : Vector3d;
  BvB : Vector3d;
  qBW : RotationQuaternionPD
}.

(** [struct RovioFailsafePose] (lines 136-146). *)
Record RovioFailsafePose := {
  failsafe_WrWB : Vector3d;
  failsafe_qBW : RotationQuaternionPD;
  feature_pixel_cov_area_median : float
}.

(** Its constructor: zero position, median [0.0], then
    [failsafe_qBW.setIdentity()]. *)
Definition RovioFailsafePose_ctor : RovioFailsafePose :=
  {| failsafe_WrWB := Vector3d_Zero;
     failsafe_qBW := RotationQuaternionPD_identity;
     feature_pixel_cov_area_median := double_to_float (S754_zero false) |}.

(** ** The monitor *)

(** The data members of [RovioHealthMonitor] (lines 152-167); the two ROS
    node handles carry no state of the monitor and are left out. *)
Record RovioHealthMonitor := {
  enabled_ : bool;
  velocity_to_consider_static_ : double;
  max_subsequent_unhealthy_updates_ : Z;
  healthy_feature_pixel_cov_area_ : double;
  healthy_feature_pixel_cov_area_increment_ : double;
  unhealthy_feature_pixel_cov_area_ : double;
  unhealthy_velocity_ : double;
  last_safe_pose_ : RovioFailsafePose;
  num_subsequent_unhealthy_updates_ : Z
}.

Definition set_num_subsequent_unhealthy_updates (n : Z) (this : RovioHealthMonitor)
  : RovioHealthMonitor :=
  {| enabled_ := enabled_ this;
     velocity_to_consider_static_ := velocity_to_consider_static_ this;
     max_subsequent_unhealthy_updates_ := max_subsequent_unhealthy_updates_ this;
     healthy_feature_pixel_cov_area_ := healthy_feature_pixel_cov_area_ this;
     healthy_feature_pixel_cov_area_increment_ :=
       healthy_feature_pixel_cov_area_increment_ this;
     unhealthy_feature_pixel_cov_area_ := unhealthy_feature_pixel_cov_area_ this;
     unhealthy_velocity_ := unhealthy_velocity_ this;
     last_safe_pose_ := last_safe_pose_ this;
     num_subsequent_unhealthy_updates_ := n |}.

Definition set_last_safe_pose (p : RovioFailsafePose) (this : RovioHealthMonitor)
  : RovioHealthMonitor :=
  {| enabled_ := enabled_ this;
     velocity_to_consider_static_ := velocity_to_consider_static_ this;
     max_subsequent_unhealthy_updates_ := max_subsequent_unhealthy_updates_ this;
     healthy_feature_pixel_cov_area_ := healthy_feature_pixel_cov_area_ this;
     healthy_feature_pixel_cov_area_increment_ :=
       healthy_feature_pixel_cov_area_increment_ this;
     unhealthy_feature_pixel_cov_area_ := unhealthy_feature_pixel_cov_area_ this;
     unhealthy_velocity_ := unhealthy_velocity_ this;
     last_safe_pose_ := p;
     num_subsequent_unhealthy_updates_ := num_subsequent_unhealthy_updates_ this |}.

Definition set_enabled (b : bool) (this : RovioHealthMonitor) : RovioHealthMonitor :=
  {| enabled_ := b;
     velocity_to_consider_static_ := velocity_to_consider_static_ this;
     max_subsequent_unhealthy_updates_ := max_subsequent_unhealthy_updates_ this;
     healthy_feature_pixel_cov_area_ := healthy_feature_pixel_cov_area_ this;
     healthy_feature_pixel_cov_area_increment_ :=
       healthy_feature_pixel_cov_area_increment_ this;
     unhealthy_feature_pixel_cov_area_ := unhealthy_feature_pixel_cov_area_ this;
     unhealthy_velocity_ := unhealthy_velocity_ this;
     last_safe_pose_ := last_safe_pose_ this;
     num_subsequent_unhealthy_updates_ := num_subsequent_unhealthy_updates_ this |}.

(** The private parameters read by the constructor: each key is either
    set on the parameter server or absent. *)
Record NodeHandle := {
  health_monitor_enabled : option bool;
  velocity_to_consider_static : option double;
  max_subsequent_unhealthy_updates : option Z;
  healthy_feature_pixel_cov_area : option double;
  healthy_feature_pixel_cov_area_increment : option double;
  unhealthy_feature_pixel_cov_area : option double;
  unhealthy_velocity : option double
}.

(** [nh.param(key, var, default)]: the stored value, else the default. *)
Definition param {A : Type} (stored : option A) (default : A) : A :=
  match stored with
  | Some v => v
  | None => default
  end.

(** The constructor (lines 46-76): the member initialisers give the
    defaults, [param] then overrides them. *)
Definition RovioHealthMonitor_ctor (nh_private : NodeHandle) : RovioHealthMonitor :=
  {| enabled_ := param (health_monitor_enabled nh_private) false;
     velocity_to_consider_static_ :=
       param (velocity_to_consider_static nh_private) (double_lit 1 10);
     max_subsequent_unhealthy_updates_ :=
       param (max_subsequent_unhealthy_updates nh_private) 2;
     healthy_feature_pixel_cov_area_ :=
       param (healthy_feature_pixel_cov_area nh_private) (double_of_Z 1);
     healthy_feature_pixel_cov_area_increment_ :=
       param (healthy_feature_pixel_cov_area_increment nh_private) (double_lit 3 10);
     unhealthy_feature_pixel_cov_area_ :=
       param (unhealthy_feature_pixel_cov_area nh_private) (double_of_Z 5);
     unhealthy_velocity_ := param (unhealthy_velocity nh_private) (double_of_Z 6);
     last_safe_pose_ := RovioFailsafePose_ctor;
     num_subsequent_unhealthy_updates_ := 0 |}.

(** Accessors (lines 79, 129-133). *)
Definition enabled (this : RovioHealthMonitor) : bool := enabled_ this.
Definition failsafe_WrWB_of (this : RovioHealthMonitor) : Vector3d :=
  failsafe_WrWB (last_safe_pose_ this).
Definition failsafe_qBW_of (this : RovioHealthMonitor) : RotationQuaternionPD :=
  failsafe_qBW (last_safe_pose_ this).

(** What [shouldResetEstimator] writes to [std::cout], one item per
    statement, with the values streamed. *)
Inductive cout_line :=
| FaultCounter (num max : Z)
| WillReset (BvB_norm : float) (velocity_limit : double)
            (median : float) (area_limit : double).

(** A call leaves a return value, the monitor after the call and what
    was printed. *)
Record Outcome := {
  returned : bool;
  monitor : RovioHealthMonitor;
  printed : list cout_line
}.

Section ShouldReset.

(** [Eigen]'s [norm()] on a [Vector3d], a [double]. *)
Variable norm : Vector3d -> double.

(** [shouldResetEstimator] (lines 82-127); [median] is the local
    [feature_pixel_cov_area_median], which shares its name with the field
    of the pose. *)
Definition shouldResetEstimator (this : RovioHealthMonitor)
           (feature_pixel_cov_area_in : list float) (imu_output : StandardOutput)
  : Outcome :=
  let median := feature_pixel_cov_area_median_of feature_pixel_cov_area_in in
  let BvB_norm : float := double_to_float (norm (BvB imu_output)) in
  if fd_gtb BvB_norm (velocity_to_consider_static_ this) &&
     (fd_gtb BvB_norm (unhealthy_velocity_ this) ||
      fd_gtb median (unhealthy_feature_pixel_cov_area_ this))
  then
    let this :=
      set_num_subsequent_unhealthy_updates
        (Int32.incr (num_subsequent_unhealthy_updates_ this)) this in
    let fault_counter :=
      FaultCounter (num_subsequent_unhealthy_updates_ this)
                   (max_subsequent_unhealthy_updates_ this) in
    if num_subsequent_unhealthy_updates_ this >? max_subsequent_unhealthy_updates_ this
    then
      {| returned := true;
         monitor := this;
         printed := [fault_counter;
                     WillReset BvB_norm (unhealthy_velocity_ this)
                               median (unhealthy_feature_pixel_cov_area_ this)] |}
    else
      {| returned := false; monitor := this; printed := [fault_counter] |}
  else
    let this :=
      if fd_ltb median (healthy_feature_pixel_cov_area_ this)
      then
        if fd_ltb (fabs (fsub median
                              (feature_pixel_cov_area_median (last_safe_pose_ this))))
                  (healthy_feature_pixel_cov_area_increment_ this)
        then
          set_last_safe_pose
            {| failsafe_WrWB := WrWB imu_output;
               failsafe_qBW := qBW imu_output;
               feature_pixel_cov_area_median := median |}
            this
        else this
      else this in
    let this := set_num_subsequent_unhealthy_updates 0 this in
    {| returned := false; monitor := this; printed := [] |}.

(** One estimator cycle: the samples and the output handed to the call. *)
Definition cycle : Type := list float * StandardOutput.

Definition call (this : RovioHealthMonitor) (c : cycle) : Outcome :=
  shouldResetEstimator this (fst c) (snd c).

(** The calls of successive cycles on one monitor: the values returned,
    in order, and the monitor after the last call. *)
Fixpoint run (this : RovioHealthMonitor) (cs : list cycle)
  : list bool * RovioHealthMonitor :=
  match cs with
  | [] => ([], this)
  | c :: cs' =>
      let r := call this c in
      let '(rs, this') := run (monitor r) cs' in
      (returned r :: rs, this')
  end.

End ShouldReset.

(** [Eigen]'s [norm()] as the library defines it, the square root of the
    sum of the squared coefficients, in [double] arithmetic.  The
    properties below hold for every [norm]; this one evaluates the model
    on concrete velocities. *)
Definition Eigen_norm (v : Vector3d) : double :=
  let sq x := SFmul prec64 emax64 x x in
  let add x y := SFadd prec64 emax64 x y in
  SFsqrt prec64 emax64 (add (add (sq (coeff_x v)) (sq (coeff_y v))) (sq (coeff_z v))).

(** ** The vocabulary of the specification *)

Section Vocabulary.

Variable norm : Vector3d -> double.

(** [speed]: the local [BvB_norm]. *)
Definition speed (o : StandardOutput) : float := double_to_float (norm (BvB o)).

(** The median computed for a cycle. *)
Definition median_of (c : cycle) : float := feature_pixel_cov_area_median_of (fst c).

(** The pose a cycle offers for retention. *)
Definition snapshot_pose (c : cycle) : RovioFailsafePose :=
  {| failsafe_WrWB := WrWB (snd c);
     failsafe_qBW := qBW (snd c);
     feature_pixel_cov_area_median := median_of c |}.

(** The unhealthy test in the words of the specification: speed above
    [velocityToConsiderStatic] and (speed above [unhealthyVelocity] or
    median above [unhealthyFeaturePixelCovArea]). *)
Definition classified_unhealthy (this : RovioHealthMonitor) (c : cycle) : Prop :=
  fd_gtb (speed (snd c)) (velocity_to_consider_static_ this) = true /\
  (fd_gtb (speed (snd c)) (unhealthy_velocity_ this) = true \/
   fd_gtb (median_of c) (unhealthy_feature_pixel_cov_area_ this) = true).

(** The retention test in the words of the specification: median below
    [healthyFeaturePixelCovArea] and within
    [healthyFeaturePixelCovAreaIncrement] of the retained median. *)
Definition qualifies (this : RovioHealthMonitor) (m : float) : Prop :=
  fd_ltb m (healthy_feature_pixel_cov_area_ this) = true /\
  fd_ltb (fabs (fsub m (feature_pixel_cov_area_median (last_safe_pose_ this))))
         (healthy_feature_pixel_cov_area_increment_ this) = true.

(** Two monitors with the same parameters (they may differ in the pose
    retained and in the counter). *)
Definition same_parameters (a b : RovioHealthMonitor) : Prop :=
  enabled_ a = enabled_ b /\
  velocity_to_consider_static_ a = velocity_to_consider_static_ b /\
  max_subsequent_unhealthy_updates_ a = max_subsequent_unhealthy_updates_ b /\
  healthy_feature_pixel_cov_area_ a = healthy_feature_pixel_cov_area_ b /\
  healthy_feature_pixel_cov_area_increment_ a =
    healthy_feature_pixel_cov_area_increment_ b /\
  unhealthy_feature_pixel_cov_area_ a = unhealthy_feature_pixel_cov_area_ b /\
  unhealthy_velocity_ a = unhealthy_velocity_ b.

(** The values returned along a streak of [len] unhealthy cycles that
    starts with the counter at [n]. *)
Fixpoint streak_returns (n mx : Z) (len : nat) : list bool :=
  match len with
  | O => []
  | S len' => (n + 1 >? mx) :: streak_returns (n + 1) mx len'
  end.

(** Each median of [ms] is within the increment [inc] of the one before
    it, the first one of [prev]; the difference is the one the code
    forms, [std::abs] of the [float] difference. *)
Fixpoint within_increment (inc : double) (prev : float) (ms : list float) : Prop :=
  match ms with
  | [] => True
  | m :: ms' => fd_ltb (fabs (fsub m prev)) inc = true /\ within_increment inc m ms'
  end.

(** The index of the lower-middle element of the sorted samples (for an
    even size the lower of the two middle ones). *)
Definition lower_middle_index (v : list float) : nat := ((length v - 1) / 2)%nat.

(** Two monitors that differ at most in the flag [enabled_]. *)
Definition differ_only_in_enabled (a b : RovioHealthMonitor) : Prop :=
  set_enabled false a = set_enabled false b.

(** The unhealthy test as the code evaluates it (lines 96-98). *)
Definition unhealthy_b (this : RovioHealthMonitor) (c : cycle) : bool :=
  fd_gtb (speed (snd c)) (velocity_to_consider_static_ this) &&
  (fd_gtb (speed (snd c)) (unhealthy_velocity_ this) ||
   fd_gtb (median_of c) (unhealthy_feature_pixel_cov_area_ this)).

(** The state machine of the design: the state is the length of the
    current streak of unhealthy cycles (0: healthy); an unhealthy cycle
    extends the streak and asks for a reset once the streak is longer
    than the limit [mx], a healthy cycle ends it. *)
Definition counter_machine_step (mx : Z) (n : nat) (unhealthy : bool) : bool * nat :=
  if unhealthy then (Z.of_nat (S n) >? mx, S n) else (false, O).

Fixpoint counter_machine (mx : Z) (n : nat) (us : list bool) : list bool * nat :=
  match us with
  | [] => ([], n)
  | u :: us' =>
      let '(r, n') := counter_machine_step mx n u in
      let '(rs, n'') := counter_machine mx n' us' in
      (r :: rs, n'')
  end.

(** Two monitors that differ at most in the counter and in the limit on
    it. *)
Definition same_thresholds_and_pose (a b : RovioHealthMonitor) : Prop :=
  velocity_to_consider_static_ a = velocity_to_consider_static_ b /\
  healthy_feature_pixel_cov_area_ a = healthy_feature_pixel_cov_area_ b /\
  healthy_feature_pixel_cov_area_increment_ a =
    healthy_feature_pixel_cov_area_increment_ b /\
  unhealthy_feature_pixel_cov_area_ a = unhealthy_feature_pixel_cov_area_ b /\
  unhealthy_velocity_ a = unhealthy_velocity_ b /\
  last_safe_pose_ a = last_safe_pose_ b.

(** Two cycles with the same samples and the same velocity (position
    and orientation may differ). *)
Definition same_samples_and_velocity (c c' : cycle) : Prop :=
  fst c = fst c' /\ BvB (snd c) = BvB (snd c').

(** A value that is a number: zero or finite. *)
Definition is_finite (x : spec_float) : bool :=
  match x with
  | S754_zero _ | S754_finite _ _ _ => true
  | _ => false
  end.

(** How many samples are strictly above the [float] [t]. *)
Definition count_exceeding (t : float) (v : list float) : nat :=
  length (filter (fun x => ltb t x) v).

End Vocabulary.

(** ** Exact values and rounding *)

(** The number a zero or a finite value stands for. *)
Definition F2Q (x : spec_float) : Q :=
  match x with
  | S754_finite s m e => (inject_Z (cond_Zopp s (Z.pos m)) * 2 ^ e)%Q
  | _ => 0%Q
  end.

(** A binary32 number: zero or finite, with the mantissa and exponent of
    the format. *)
Definition binary32_number (x : float) : Prop :=
  is_finite x = true /\ valid_binary prec32 emax32 x = true.

Definition exponent_or (x : spec_float) (default : Z) : Z :=
  match x with
  | S754_finite _ _ e => e
  | _ => default
  end.

(** The integer [k] with [x = k * 2^e], for [e] not above the exponent
    of [x]. *)
Definition mantissa_at (e : Z) (x : spec_float) : Z :=
  match x with
  | S754_finite s m ex => cond_Zopp s (Z.pos m) * 2 ^ (ex - e)
  | _ => 0
  end.

Definition common_exponent (a b : spec_float) : Z :=
  Z.min (exponent_or a (exponent_or b 0)) (exponent_or b (exponent_or a 0)).

(** The absolute difference of two numbers as they are. *)
Definition exact_abs_difference (a b : spec_float) : Q := Qabs (F2Q a - F2Q b).

(** The absolute difference in single precision: [|a - b|], exact at the
    common exponent, rounded to the nearest [float] (ties to even) by the
    rounding of the standard library. *)
Definition rounded_abs_difference (a b : float) : float :=
  let e := common_exponent a b in
  binary_normalize prec32 emax32 (Z.abs (mantissa_at e a - mantissa_at e b)) e false.

(** The retention test with the difference spelled out: median below
    [healthyFeaturePixelCovArea] and the single-precision absolute
    difference to the retained median below
    [healthyFeaturePixelCovAreaIncrement]. *)
Definition qualifies_rounded (this : RovioHealthMonitor) (m : float) : Prop :=
  fd_ltb m (healthy_feature_pixel_cov_area_ this) = true /\
  fd_ltb (rounded_abs_difference
            m (feature_pixel_cov_area_median (last_safe_pose_ this)))
         (healthy_feature_pixel_cov_area_increment_ this) = true.

(** Each median of [ms] has a single-precision absolute difference below
    [inc] to the one before it, the first one to [prev]. *)
Fixpoint within_increment_rounded (inc : double) (prev : float) (ms : list float)
  : Prop :=
  match ms with
  | [] => True
  | m :: ms' =>
      fd_ltb (rounded_abs_difference m prev) inc = true /\
      within_increment_rounded inc m ms'
  end.

(** ** Concrete monitors and cycles *)

(** A parameter server on which no key is set. *)
Definition no_parameters : NodeHandle :=
  {| health_monitor_enabled := None;
     velocity_to_consider_static := None;
     max_subsequent_unhealthy_updates := None;
     healthy_feature_pixel_cov_area := None;
     healthy_feature_pixel_cov_area_increment := None;
     unhealthy_feature_pixel_cov_area := None;
     unhealthy_velocity := None |}.

(** The monitor with the default parameters. *)
Definition default_monitor : RovioHealthMonitor := RovioHealthMonitor_ctor no_parameters.

(** The monitor that tolerates [INT_MAX] unhealthy updates in a row. *)
Definition patient_monitor : RovioHealthMonitor :=
  RovioHealthMonitor_ctor
    {| health_monitor_enabled := None;
       velocity_to_consider_static := None;
       max_subsequent_unhealthy_updates := Some Int32.INT_MAX;
       healthy_feature_pixel_cov_area := None;
       healthy_feature_pixel_cov_area_increment := None;
       unhealthy_feature_pixel_cov_area := None;
       unhealthy_velocity := None |}.

(** Decimal literals [n/d] of type [float]. *)
Definition float_lit (n d : Z) : float :=
  SFdiv prec32 emax32 (float_of_Z n) (float_of_Z d).

(** An output at position [(px, 0, 0)] moving with velocity [(vx, 0, 0)]. *)
Definition output_at (px vx : Z) : StandardOutput :=
  {| WrWB := {| coeff_x := double_of_Z px;
                coeff_y := S754_zero false; coeff_z := S754_zero false |};
     BvB := {| coeff_x := double_of_Z vx;
               coeff_y := S754_zero false; coeff_z := S754_zero false |};
     qBW := RotationQuaternionPD_identity |}.

(** Speed 7, no samples (median 0). *)
Definition fast_cycle : cycle := ([], output_at 0 7).

(** At rest at [(px, 0, 0)] with the given samples. *)
Definition still_cycle (px : Z) (samples : list float) : cycle :=
  (samples, output_at px 0).

(** The default monitor after [INT_MAX - 1] unhealthy updates in a row. *)
Definition weary_monitor : RovioHealthMonitor :=
  set_num_subsequent_unhealthy_updates (Int32.INT_MAX - 1) default_monitor.

(** At rest with medians 0.75, 0.625, 0.5: each below 1.0 and within 0.3
    of the one before, none within 0.3 of zero. *)
Definition drifting_cycles : list cycle :=
  [still_cycle 1 [float_lit 3 4]; still_cycle 2 [float_lit 5 8];
   still_cycle 3 [float_lit 1 2]].

(** At rest with medians 0.25, 0.5, 0.75. *)
Definition settling_cycles : list cycle :=
  [still_cycle 1 [float_lit 1 4]; still_cycle 2 [float_lit 1 2]].
Definition settled_cycle : cycle := still_cycle 3 [float_lit 3 4].

(** The monitor with the limit -1 on the counter. *)
Definition hasty_monitor : RovioHealthMonitor :=
  RovioHealthMonitor_ctor
    {| health_monitor_enabled := None;
       velocity_to_consider_static := None;
       max_subsequent_unhealthy_updates := Some (-1);
       healthy_feature_pixel_cov_area := None;
       healthy_feature_pixel_cov_area_increment := None;
       unhealthy_feature_pixel_cov_area := None;
       unhealthy_velocity := None |}.

(** An output whose velocity has a NaN coefficient. *)
Definition lost_output : StandardOutput :=
  {| WrWB := Vector3d_Zero;
     BvB := {| coeff_x := S754_nan;
               coeff_y := S754_zero false; coeff_z := S754_zero false |};
     qBW := RotationQuaternionPD_identity |}.

(** An output moving with velocity [(0.1, 0, 0)]: its norm is the
    default [velocity_to_consider_static]. *)
Definition creeping_output : StandardOutput :=
  {| WrWB := Vector3d_Zero;
     BvB := {| coeff_x := double_lit 1 10;
               coeff_y := S754_zero false; coeff_z := S754_zero false |};
     qBW := RotationQuaternionPD_identity |}.

(** The default monitor after latching a cycle at rest with the median
    [2^-26]. *)
Definition nudged_monitor : RovioHealthMonitor :=
  set_num_subsequent_unhealthy_updates
    0 (set_last_safe_pose
         {| failsafe_WrWB := WrWB (output_at 1 0);
            failsafe_qBW := qBW (output_at 1 0);
            feature_pixel_cov_area_median := float_lit 1 67108864 |}
         default_monitor).

(** Two samples, 1.0 and 2.0. *)
Definition two_samples : list float := [float_of_Z 1; float_of_Z 2].

(** * Properties *)

(** *** Order facts about [SFcompare] *)

Section CompareFacts.

Lemma compare_cont_Eq (p q : positive) :
  Pos.compare_cont Eq p q = (p ?= q)%positive.
Proof. reflexivity. Qed.

Lemma compare_cont_spec (p q : positive) :
  CompareSpec (p = q) (p < q)%positive (q < p)%positive (Pos.compare_cont Eq p q).
Proof. exact (Pos.compare_spec p q). Qed.

Lemma SFcompare_antisym (x y : spec_float) :
  SFcompare y x = option_map CompOpp (SFcompare x y).
Proof.
  destruct x as [sx|sx| |sx mx ex], y as [sy|sy| |sy my ey]; simpl;
    try reflexivity;
    try (destruct sx; reflexivity);
    try (destruct sy; reflexivity);
    try (destruct sx, sy; reflexivity).
  rewrite !compare_cont_Eq.
  rewrite (Z.compare_antisym ex ey), (Pos.compare_antisym mx my).
  destruct sx, sy; simpl; try reflexivity;
    destruct (ex ?= ey); simpl; try reflexivity;
    destruct (mx ?= my)%positive; reflexivity.
Qed.

Lemma ltb_asym (x y : spec_float) : ltb x y = true -> ltb y x = false.
Proof.
  unfold ltb, SFltb. rewrite (SFcompare_antisym x y).
  destruct (SFcompare x y) as [[]|]; simpl; congruence.
Qed.

Lemma ltb_irrefl (x : spec_float) : ltb x x = false.
Proof.
  destruct (ltb x x) eqn:E; [|reflexivity].
  pose proof (ltb_asym _ _ E). congruence.
Qed.

Lemma leb_not_gtb (x y : spec_float) : leb x y = true -> gtb x y = false.
Proof.
  unfold leb, gtb, SFleb, SFltb. rewrite (SFcompare_antisym x y).
  destruct (SFcompare x y) as [[]|]; simpl; congruence.
Qed.

Lemma leb_not_ltb (x y : spec_float) : leb x y = true -> ltb y x = false.
Proof. apply leb_not_gtb. Qed.

Lemma ltb_not_nan_l (x y : spec_float) : ltb x y = true -> is_nan x = false.
Proof. unfold ltb, SFltb. destruct x, y; simpl; congruence. Qed.

Lemma ltb_not_nan_r (x y : spec_float) : ltb x y = true -> is_nan y = false.
Proof. unfold ltb, SFltb. destruct x, y; simpl; congruence. Qed.

(** Without NaN the comparison is total. *)
Lemma SFcompare_total (x y : spec_float) :
  is_nan x = false -> is_nan y = false -> exists c, SFcompare x y = Some c.
Proof.
  destruct x, y; simpl; try congruence; intros _ _; eexists; reflexivity.
Qed.

Lemma not_ltb_leb (x y : spec_float) :
  is_nan x = false -> is_nan y = false -> ltb x y = false -> leb y x = true.
Proof.
  intros Hx Hy. unfold ltb, leb, SFltb, SFleb.
  rewrite (SFcompare_antisym x y).
  destruct (SFcompare_total x y Hx Hy) as [c ->]. destruct c; simpl; congruence.
Qed.

(** The finite case of transitivity: a lexicographic order on
    (sign, exponent, mantissa). *)
Lemma ltb_trans (x y z : spec_float) :
  ltb x y = true -> ltb y z = true -> ltb x z = true.
Proof.
  unfold ltb, SFltb.
  destruct x as [sx|sx| |sx mx ex], y as [sy|sy| |sy my ey],
           z as [sz|sz| |sz mz ez]; simpl;
    try congruence;
    try (destruct sx; simpl; congruence);
    try (destruct sy; simpl; congruence);
    try (destruct sz; simpl; congruence);
    try (destruct sx, sy; simpl; congruence);
    try (destruct sx, sz; simpl; congruence);
    try (destruct sy, sz; simpl; congruence);
    try (destruct sx, sy, sz; simpl; congruence).
  destruct sx, sy, sz; simpl; try congruence;
    destruct (Z.compare_spec ex ey), (Z.compare_spec ey ez),
             (Z.compare_spec ex ez); try congruence; try lia;
    destruct (compare_cont_spec mx my), (compare_cont_spec my mz),
             (compare_cont_spec mx mz); simpl; try congruence; try lia.
Qed.

(** [x <= y < z] gives [x < z] (no NaN involved). *)
Lemma leb_ltb_trans (x y z : spec_float) :
  is_nan x = false -> ltb y x = false -> ltb y z = true -> ltb x z = true.
Proof.
  intros Hx Hyx Hyz.
  pose proof (ltb_not_nan_l _ _ Hyz) as Hy.
  pose proof (ltb_not_nan_r _ _ Hyz) as Hz.
  destruct (ltb x z) eqn:Hxz; [reflexivity|exfalso].
  (* z <= x and y < z, so y < x *)
  revert Hyx Hyz Hxz. unfold ltb, SFltb.
  destruct x as [sx|sx| |sx mx ex], y as [sy|sy| |sy my ey],
           z as [sz|sz| |sz mz ez]; simpl in *;
    try congruence;
    try (destruct sx; simpl; congruence);
    try (destruct sy; simpl; congruence);
    try (destruct sz; simpl; congruence);
    try (destruct sx, sy; simpl; congruence);
    try (destruct sx, sz; simpl; congruence);
    try (destruct sy, sz; simpl; congruence);
    try (destruct sx, sy, sz; simpl; congruence).
  destruct sx, sy, sz; simpl; try congruence;
    destruct (Z.compare_spec ey ex), (Z.compare_spec ey ez),
             (Z.compare_spec ex ez); try congruence; try lia;
    destruct (compare_cont_spec my mx), (compare_cont_spec my mz),
             (compare_cont_spec mx mz); simpl; try congruence; try lia.
Qed.

Lemma equiv_of_not_ltb (x y : spec_float) :
  is_nan x = false -> is_nan y = false ->
  ltb x y = false -> ltb y x = false -> equiv x y.
Proof.
  intros Hx Hy. unfold ltb, SFltb, equiv.
  rewrite (SFcompare_antisym x y).
  destruct (SFcompare_total x y Hx Hy) as [c ->]. destruct c; simpl; congruence.
Qed.

End CompareFacts.

(** *** Facts about [int] *)

Module Int32Facts.
Import Int32.

Lemma wrap_small (z : Z) : in_range z -> wrap z = z.
Proof.
  unfold in_range, INT_MIN, INT_MAX, wrap. intros H.
  rewrite Z.mod_small by lia. lia.
Qed.

Lemma incr_small (n : Z) : INT_MIN <= n < INT_MAX -> incr n = n + 1.
Proof.
  unfold incr. intros H. apply wrap_small.
  unfold in_range, INT_MIN, INT_MAX in *. lia.
Qed.

Lemma incr_INT_MAX : incr INT_MAX = INT_MIN.
Proof. reflexivity. Qed.

Lemma wrap_in_range (z : Z) : in_range (wrap z).
Proof.
  unfold in_range, INT_MIN, INT_MAX, wrap.
  pose proof (Z.mod_pos_bound (z + 2147483648) 4294967296). lia.
Qed.

End Int32Facts.

(** *** Facts about the rearrangement *)

Section NthElementFacts.

Lemma insert_by_lt_perm (x : float) (v : list float) :
  Permutation (x :: v) (insert_by_lt x v).
Proof.
  induction v as [|y t IH]; simpl.
  - apply Permutation_refl.
  - destruct (ltb x y).
    + apply Permutation_refl.
    + eapply Permutation_trans; [apply perm_swap|].
      apply perm_skip, IH.
Qed.

Lemma nth_element_perm (n : nat) (v : list float) :
  Permutation v (nth_element n v).
Proof.
  unfold nth_element. induction v as [|x t IH]; simpl.
  - constructor.
  - eapply Permutation_trans; [apply perm_skip, IH|].
    apply insert_by_lt_perm.
Qed.

Lemma nth_element_length (n : nat) (v : list float) :
  length (nth_element n v) = length v.
Proof. symmetry. apply Permutation_length, nth_element_perm. Qed.

Lemma insert_by_lt_Forall (P : float -> Prop) (x : float) (v : list float) :
  P x -> Forall P v -> Forall P (insert_by_lt x v).
Proof.
  intros Hx Hv.
  eapply Permutation_Forall; [apply insert_by_lt_perm|].
  constructor; assumption.
Qed.

Lemma insert_by_lt_sorted (x : float) (v : list float) :
  StronglySorted not_above v -> StronglySorted not_above (insert_by_lt x v).
Proof.
  induction 1 as [|y t Hs IH Hall]; simpl.
  - repeat constructor.
  - destruct (ltb x y) eqn:Hxy.
    + constructor; [constructor; assumption|].
      constructor.
      * unfold not_above. apply ltb_asym, Hxy.
      * eapply Forall_impl; [|exact Hall].
        intros z Hyz. unfold not_above in *.
        destruct (ltb z x) eqn:Hzx; [|reflexivity].
        rewrite (ltb_trans _ _ _ Hzx Hxy) in Hyz. discriminate.
    + constructor; [exact IH|].
      apply insert_by_lt_Forall; [exact Hxy|exact Hall].
Qed.

Lemma nth_element_sorted (n : nat) (v : list float) :
  StronglySorted not_above (nth_element n v).
Proof.
  unfold nth_element. induction v as [|x t IH]; simpl.
  - constructor.
  - apply insert_by_lt_sorted, IH.
Qed.

Lemma sorted_app_inv (lo hi : list float) (m : float) :
  StronglySorted not_above (lo ++ m :: hi) ->
  Forall (fun x => ltb m x = false) lo /\ Forall (fun x => ltb x m = false) hi.
Proof.
  induction lo as [|a lo IH]; simpl; intros Hs.
  - split; [constructor|].
    inversion Hs; subst. assumption.
  - inversion Hs as [|? ? Hs' Hall]; subst.
    destruct (IH Hs') as [Hlo Hhi]. split; [|exact Hhi].
    constructor; [|exact Hlo].
    rewrite Forall_app in Hall. destruct Hall as [_ Hm].
    inversion Hm; subst. assumption.
Qed.

(** The model meets the specification of [std::nth_element]. *)
Lemma nth_element_spec (n : nat) (v : list float) :
  (n < length v)%nat -> nth_element_post n v (nth_element n v).
Proof.
  intros Hn. split; [apply nth_element_perm|].
  rewrite <- (nth_element_length n v) in Hn.
  destruct (nth_split (nth_element n v) fzero Hn) as (lo & hi & Heq & Hlen).
  exists lo, (nth n (nth_element n v) fzero), hi.
  split; [exact Heq|]. split; [exact Hlen|].
  apply sorted_app_inv. rewrite <- Heq. apply nth_element_sorted.
Qed.

Lemma filter_all_false {A} (f : A -> bool) (l : list A) :
  Forall (fun x => f x = false) l -> filter f l = [].
Proof.
  induction 1 as [|x l Hx _ IH]; simpl; [reflexivity|]. rewrite Hx. exact IH.
Qed.

Lemma filter_length_perm {A} (f : A -> bool) (l l' : list A) :
  Permutation l l' -> length (filter f l) = length (filter f l').
Proof.
  induction 1; simpl; try reflexivity.
  - destruct (f x); simpl; congruence.
  - destruct (f x), (f y); reflexivity.
  - congruence.
Qed.

Lemma filter_length_mono {A} (f g : A -> bool) (l : list A) :
  Forall (fun x => f x = true -> g x = true) l ->
  (length (filter f l) <= length (filter g l))%nat.
Proof.
  induction 1 as [|x l Hx _ IH]; simpl; [lia|].
  destruct (f x) eqn:Hf.
  - rewrite (Hx eq_refl). simpl. lia.
  - destruct (g x); simpl; lia.
Qed.

(** Whatever rearrangement [std::nth_element] produces, the element it
    leaves at [nth] has rank [nth]. *)
Lemma nth_element_post_rank (n : nat) (v v' : list float) :
  nth_element_post n v v' -> order_statistic n v (nth n v' fzero).
Proof.
  intros [Hperm (lo & m & hi & -> & Hlen & Hlo & Hhi)].
  assert (Hnth : nth n (lo ++ m :: hi) fzero = m).
  { rewrite app_nth2 by lia. rewrite Hlen, Nat.sub_diag. reflexivity. }
  rewrite Hnth. unfold order_statistic, count_below, count_above.
  rewrite !(filter_length_perm _ _ _ Hperm), (Permutation_length Hperm).
  split; [|split].
  - eapply Permutation_in; [apply Permutation_sym, Hperm|].
    apply in_or_app. right. left. reflexivity.
  - rewrite filter_app, length_app. simpl. rewrite ltb_irrefl.
    rewrite (filter_all_false (fun x => ltb x m) hi Hhi). simpl.
    match goal with |- (length (filter ?f lo) + 0 <= _)%nat =>
      pose proof (filter_length_le f lo) end.
    lia.
  - rewrite filter_app, !length_app. simpl. rewrite ltb_irrefl.
    rewrite (filter_all_false (fun x => ltb m x) lo Hlo). simpl.
    match goal with |- (length (filter ?f hi) + _ < _)%nat =>
      pose proof (filter_length_le f hi) end.
    lia.
Qed.

(** On samples without NaN the rank determines the number. *)
Lemma order_statistic_not_ltb (k : nat) (v : list float) (m m' : float) :
  no_nan v -> order_statistic k v m -> order_statistic k v m' -> ltb m m' = false.
Proof.
  intros Hv (Hin & _ & Ha) (Hin' & Hb' & _).
  destruct (ltb m m') eqn:Hlt; [exfalso|reflexivity].
  unfold count_below, count_above in *.
  pose proof (filter_length (fun x => ltb m x) v) as Hsplit.
  assert (Hmono : (length (filter (fun x => negb (ltb m x)) v)
                   <= length (filter (fun x => ltb x m') v))%nat).
  { apply filter_length_mono.
    eapply Forall_impl; [|exact Hv].
    intros x Hx Hneg. apply negb_true_iff in Hneg.
    eapply leb_ltb_trans; eassumption. }
  lia.
Qed.

Lemma order_statistic_unique (k : nat) (v : list float) (m m' : float) :
  no_nan v -> order_statistic k v m -> order_statistic k v m' -> equiv m m'.
Proof.
  intros Hv Hm Hm'.
  pose proof (proj1 (Forall_forall _ _) Hv) as Hall.
  apply equiv_of_not_ltb.
  - apply Hall, Hm.
  - apply Hall, Hm'.
  - eapply order_statistic_not_ltb; eassumption.
  - eapply order_statistic_not_ltb; eassumption.
Qed.

End NthElementFacts.

(** ** How one call acts *)

Section CallFacts.

Variable norm : Vector3d -> double.

Local Abbreviation call := (call norm).
Local Abbreviation run := (run norm).
Local Abbreviation classified_unhealthy := (classified_unhealthy norm).

Lemma classified_unhealthy_test (this : RovioHealthMonitor) (c : cycle) :
  classified_unhealthy this c <->
  fd_gtb (speed norm (snd c)) (velocity_to_consider_static_ this) &&
  (fd_gtb (speed norm (snd c)) (unhealthy_velocity_ this) ||
   fd_gtb (median_of c) (unhealthy_feature_pixel_cov_area_ this)) = true.
Proof.
  unfold classified_unhealthy.
  rewrite andb_true_iff, orb_true_iff. reflexivity.
Qed.

Lemma classified_unhealthy_dec (this : RovioHealthMonitor) (c : cycle) :
  {classified_unhealthy this c} + {~ classified_unhealthy this c}.
Proof.
  destruct (fd_gtb (speed norm (snd c)) (velocity_to_consider_static_ this) &&
            (fd_gtb (speed norm (snd c)) (unhealthy_velocity_ this) ||
             fd_gtb (median_of c) (unhealthy_feature_pixel_cov_area_ this))) eqn:E.
  - left. apply classified_unhealthy_test, E.
  - right. rewrite classified_unhealthy_test, E. discriminate.
Qed.

Lemma classified_unhealthy_same (a b : RovioHealthMonitor) (c : cycle) :
  same_parameters a b -> classified_unhealthy a c -> classified_unhealthy b c.
Proof.
  intros (_ & Hs & _ & _ & _ & Ha & Hv). unfold classified_unhealthy.
  rewrite Hs, Ha, Hv. exact (fun H => H).
Qed.

Lemma same_parameters_refl (a : RovioHealthMonitor) : same_parameters a a.
Proof. repeat split. Qed.

Lemma same_parameters_sym (a b : RovioHealthMonitor) :
  same_parameters a b -> same_parameters b a.
Proof. unfold same_parameters. intuition congruence. Qed.

Lemma same_parameters_trans (a b c : RovioHealthMonitor) :
  same_parameters a b -> same_parameters b c -> same_parameters a c.
Proof. unfold same_parameters. intuition congruence. Qed.

(** The unhealthy branch. *)
Lemma call_unhealthy (this : RovioHealthMonitor) (c : cycle) :
  classified_unhealthy this c ->
  let n := Int32.incr (num_subsequent_unhealthy_updates_ this) in
  monitor (call this c) = set_num_subsequent_unhealthy_updates n this /\
  returned (call this c) = (n >? max_subsequent_unhealthy_updates_ this) /\
  exists rest,
    printed (call this c) =
    FaultCounter n (max_subsequent_unhealthy_updates_ this) :: rest.
Proof.
  intros H. apply classified_unhealthy_test in H.
  unfold call, shouldResetEstimator. unfold speed, median_of in H.
  rewrite H. simpl.
  destruct (Int32.incr (num_subsequent_unhealthy_updates_ this) >?
            max_subsequent_unhealthy_updates_ this); simpl;
    (split; [reflexivity|split; [reflexivity|eexists; reflexivity]]).
Qed.

(** The healthy branch. *)
Lemma call_healthy (this : RovioHealthMonitor) (c : cycle) :
  ~ classified_unhealthy this c ->
  returned (call this c) = false /\
  printed (call this c) = [] /\
  num_subsequent_unhealthy_updates_ (monitor (call this c)) = 0 /\
  (qualifies this (median_of c) ->
   monitor (call this c) =
   set_num_subsequent_unhealthy_updates 0 (set_last_safe_pose (snapshot_pose c) this)) /\
  (~ qualifies this (median_of c) ->
   monitor (call this c) = set_num_subsequent_unhealthy_updates 0 this).
Proof.
  intros H. rewrite classified_unhealthy_test in H.
  apply not_true_is_false in H.
  unfold call, shouldResetEstimator. unfold speed, median_of in H.
  rewrite H. simpl.
  repeat split.
  - intros [Hq1 Hq2]. unfold median_of in *. rewrite Hq1, Hq2. reflexivity.
  - intros Hq. unfold qualifies, median_of in *.
    destruct (fd_ltb (feature_pixel_cov_area_median_of (fst c))
                     (healthy_feature_pixel_cov_area_ this)); [|reflexivity].
    destruct (fd_ltb _ (healthy_feature_pixel_cov_area_increment_ this));
      [|reflexivity].
    exfalso. apply Hq. split; reflexivity.
Qed.

Lemma qualifies_dec (this : RovioHealthMonitor) (m : float) :
  {qualifies this m} + {~ qualifies this m}.
Proof.
  unfold qualifies.
  destruct (fd_ltb m (healthy_feature_pixel_cov_area_ this));
    [|right; intros [? _]; discriminate].
  destruct (fd_ltb _ (healthy_feature_pixel_cov_area_increment_ this));
    [left; split; reflexivity|right; intros [_ ?]; discriminate].
Qed.

(** No call touches a parameter. *)
Lemma call_same_parameters (this : RovioHealthMonitor) (c : cycle) :
  same_parameters this (monitor (call this c)).
Proof.
  destruct (classified_unhealthy_dec this c) as [Hu|Hh].
  - destruct (call_unhealthy this c Hu) as (-> & _). repeat split.
  - destruct (call_healthy this c Hh) as (_ & _ & _ & Hq & Hn).
    destruct (qualifies_dec this (median_of c)) as [Q|Q].
    + rewrite (Hq Q). repeat split.
    + rewrite (Hn Q). repeat split.
Qed.

Lemma run_same_parameters (cs : list cycle) (this : RovioHealthMonitor) :
  same_parameters this (snd (run this cs)).
Proof.
  revert this. induction cs as [|c cs IH]; intros this; simpl.
  - apply same_parameters_refl.
  - specialize (IH (monitor (call this c))).
    destruct (run (monitor (call this c)) cs) as [rs this'] eqn:E. simpl in *.
    eapply same_parameters_trans; [apply call_same_parameters|exact IH].
Qed.

Lemma run_nil (this : RovioHealthMonitor) : run this [] = ([], this).
Proof. reflexivity. Qed.

Lemma run_cons (this : RovioHealthMonitor) (c : cycle) (cs : list cycle) :
  run this (c :: cs) =
  (returned (call this c) :: fst (run (monitor (call this c)) cs),
   snd (run (monitor (call this c)) cs)).
Proof.
  simpl. destruct (run (monitor (call this c)) cs). reflexivity.
Qed.

Lemma run_app (cs1 cs2 : list cycle) (this : RovioHealthMonitor) :
  run this (cs1 ++ cs2) =
  (fst (run this cs1) ++ fst (run (snd (run this cs1)) cs2),
   snd (run (snd (run this cs1)) cs2)).
Proof.
  revert this. induction cs1 as [|c cs1 IH]; intros this.
  - simpl. destruct (run this cs2). reflexivity.
  - rewrite <- app_comm_cons, !run_cons, IH. reflexivity.
Qed.

Lemma run_length (cs : list cycle) (this : RovioHealthMonitor) :
  length (fst (run this cs)) = length cs.
Proof.
  revert this. induction cs as [|c cs IH]; intros this; [reflexivity|].
  rewrite run_cons. simpl. rewrite IH. reflexivity.
Qed.

End CallFacts.

(** ** Streaks of unhealthy cycles *)

Section StreakFacts.

Variable norm : Vector3d -> double.

Local Abbreviation call := (call norm).
Local Abbreviation run := (run norm).
Local Abbreviation classified_unhealthy := (classified_unhealthy norm).

Lemma set_num_twice (a b : Z) (this : RovioHealthMonitor) :
  set_num_subsequent_unhealthy_updates a (set_num_subsequent_unhealthy_updates b this)
  = set_num_subsequent_unhealthy_updates a this.
Proof. reflexivity. Qed.

Lemma set_num_same (this : RovioHealthMonitor) :
  set_num_subsequent_unhealthy_updates (num_subsequent_unhealthy_updates_ this) this
  = this.
Proof. destruct this. reflexivity. Qed.

Lemma streak_returns_length (n mx : Z) (len : nat) :
  length (streak_returns n mx len) = len.
Proof.
  revert n. induction len as [|len IH]; intros n; simpl; [reflexivity|].
  rewrite IH. reflexivity.
Qed.

Lemma streak_returns_false (len : nat) (n mx : Z) :
  n + Z.of_nat len <= mx -> streak_returns n mx len = repeat false len.
Proof.
  revert n. induction len as [|len IH]; intros n H; simpl; [reflexivity|].
  rewrite IH by lia.
  replace (n + 1 >? mx) with false; [reflexivity|].
  symmetry. rewrite Z.gtb_ltb. apply Z.ltb_ge. lia.
Qed.

Lemma streak_returns_true (len : nat) (n mx : Z) :
  mx <= n -> streak_returns n mx len = repeat true len.
Proof.
  revert n. induction len as [|len IH]; intros n H; simpl; [reflexivity|].
  rewrite IH by lia.
  replace (n + 1 >? mx) with true; [reflexivity|].
  symmetry. rewrite Z.gtb_ltb. apply Z.ltb_lt. lia.
Qed.

Lemma streak_returns_snoc (len : nat) (n mx : Z) :
  streak_returns n mx (S len) =
  streak_returns n mx len ++ [n + Z.of_nat len + 1 >? mx].
Proof.
  revert n. induction len as [|len IH]; intros n.
  - simpl. rewrite Z.add_0_r. reflexivity.
  - change (streak_returns n mx (S (S len)))
      with ((n + 1 >? mx) :: streak_returns (n + 1) mx (S len)).
    rewrite IH. simpl streak_returns. simpl app.
    replace (n + 1 + Z.of_nat len + 1) with (n + Z.of_nat (S len) + 1) by lia.
    reflexivity.
Qed.

Lemma repeat_snoc {A} (x : A) (n : nat) : repeat x (S n) = repeat x n ++ [x].
Proof.
  induction n as [|n IH]; simpl; [reflexivity|].
  f_equal. exact IH.
Qed.

(** While the counter stays within the range of [int], a streak of
    unhealthy cycles counts up and changes nothing else. *)
Lemma run_unhealthy_streak (cs : list cycle) (this : RovioHealthMonitor) :
  Forall (classified_unhealthy this) cs ->
  Int32.INT_MIN <= num_subsequent_unhealthy_updates_ this ->
  num_subsequent_unhealthy_updates_ this + Z.of_nat (length cs) <= Int32.INT_MAX ->
  run this cs =
  (streak_returns (num_subsequent_unhealthy_updates_ this)
                  (max_subsequent_unhealthy_updates_ this) (length cs),
   set_num_subsequent_unhealthy_updates
     (num_subsequent_unhealthy_updates_ this + Z.of_nat (length cs)) this).
Proof.
  revert this. induction cs as [|c cs IH]; intros this Hall Hlo Hhi.
  - simpl. rewrite Z.add_0_r, set_num_same. reflexivity.
  - inversion Hall as [|? ? Hc Hcs]; subst.
    rewrite run_cons.
    destruct (call_unhealthy norm this c Hc) as (Hm & Hr & _).
    cbv zeta in Hm, Hr.
    change (length (c :: cs)) with (S (length cs)) in *.
    rewrite Int32Facts.incr_small in Hm, Hr by lia.
    rewrite Hm, Hr.
    rewrite IH.
    + simpl num_subsequent_unhealthy_updates_.
      simpl max_subsequent_unhealthy_updates_.
      rewrite set_num_twice.
      replace (num_subsequent_unhealthy_updates_ this + 1 + Z.of_nat (length cs))
        with (num_subsequent_unhealthy_updates_ this + Z.of_nat (S (length cs)))
        by lia.
      reflexivity.
    + eapply Forall_impl; [|exact Hcs].
      intros c'. apply classified_unhealthy_same. repeat split.
    + simpl. lia.
    + simpl num_subsequent_unhealthy_updates_. lia.
Qed.

(** One more unhealthy cycle at [INT_MAX]: the counter wraps to
    [INT_MIN] and the call returns [false]. *)
Lemma call_unhealthy_at_INT_MAX (this : RovioHealthMonitor) (c : cycle) :
  classified_unhealthy this c ->
  num_subsequent_unhealthy_updates_ this = Int32.INT_MAX ->
  Int32.in_range (max_subsequent_unhealthy_updates_ this) ->
  returned (call this c) = false /\
  num_subsequent_unhealthy_updates_ (monitor (call this c)) = Int32.INT_MIN.
Proof.
  intros Hc Hn Hmax.
  destruct (call_unhealthy norm this c Hc) as (Hm & Hr & _). cbv zeta in Hm, Hr.
  rewrite Hn, Int32Facts.incr_INT_MAX in Hm, Hr.
  rewrite Hm, Hr. split; [|reflexivity].
  unfold Int32.in_range in Hmax. rewrite Z.gtb_ltb. apply Z.ltb_ge. lia.
Qed.

(** With the limit at [INT_MAX], the call after [INT_MAX] unhealthy cycles
    returns [false] like those before it. *)
Lemma run_unhealthy_past_INT_MAX
      (k : nat) (this : RovioHealthMonitor) (cs : list cycle) :
  num_subsequent_unhealthy_updates_ this = 0 ->
  max_subsequent_unhealthy_updates_ this = Int32.INT_MAX ->
  Z.of_nat k = Int32.INT_MAX ->
  length cs = S k ->
  Forall (classified_unhealthy this) cs ->
  fst (run this cs) = repeat false (S k).
Proof.
  intros Hnum Hmax Hk Hlen Hall.
  assert (Hne : cs <> []) by (intros ->; discriminate).
  destruct (exists_last Hne) as (cs1 & c & ->).
  rewrite length_app, Nat.add_1_r in Hlen. injection Hlen as Hlen.
  apply Forall_app in Hall. destruct Hall as [H1 Hc].
  inversion Hc as [|? ? Hc' _]; subst.
  rewrite run_app.
  rewrite (run_unhealthy_streak cs1 this H1).
  - cbn [fst snd]. rewrite Hnum, Hmax, Z.add_0_l, run_cons, run_nil. cbn [fst].
    rewrite streak_returns_false by lia.
    set (this1 := set_num_subsequent_unhealthy_updates (Z.of_nat (length cs1)) this).
    assert (Hc1 : classified_unhealthy this1 c).
    { revert Hc'. apply classified_unhealthy_same. repeat split. }
    destruct (call_unhealthy_at_INT_MAX this1 c Hc1) as [-> _].
    + exact Hk.
    + unfold this1. cbn [max_subsequent_unhealthy_updates_
                          set_num_subsequent_unhealthy_updates].
      rewrite Hmax. unfold Int32.in_range, Int32.INT_MIN, Int32.INT_MAX. lia.
    + rewrite repeat_snoc. reflexivity.
  - rewrite Hnum. unfold Int32.INT_MIN. lia.
  - rewrite Hnum. lia.
Qed.

Lemma classified_unhealthy_same_iff (a b : RovioHealthMonitor) (c : cycle) :
  same_parameters a b -> (classified_unhealthy a c <-> classified_unhealthy b c).
Proof.
  intros H. split; apply classified_unhealthy_same;
    [exact H|apply same_parameters_sym, H].
Qed.

(** A streak of unhealthy cycles, however long, leaves the retained pose
    alone. *)
Lemma run_unhealthy_pose (cs : list cycle) (this : RovioHealthMonitor) :
  Forall (classified_unhealthy this) cs ->
  last_safe_pose_ (snd (run this cs)) = last_safe_pose_ this.
Proof.
  revert this. induction cs as [|c cs IH]; intros this Hall; [reflexivity|].
  inversion Hall as [|? ? Hc Hcs]; subst.
  rewrite run_cons. simpl snd.
  rewrite IH.
  - destruct (call_unhealthy norm this c Hc) as (-> & _). reflexivity.
  - eapply Forall_impl; [|exact Hcs].
    intros c'. apply classified_unhealthy_same, call_same_parameters.
Qed.

(** The flag [enabled_] is carried along and never read. *)
Lemma call_set_enabled (b : bool) (this : RovioHealthMonitor) (c : cycle) :
  call (set_enabled b this) c =
  {| returned := returned (call this c);
     monitor := set_enabled b (monitor (call this c));
     printed := printed (call this c) |}.
Proof.
  unfold call, shouldResetEstimator. simpl.
  destruct (fd_gtb _ (velocity_to_consider_static_ this) && _); simpl.
  - destruct (_ >? _); reflexivity.
  - destruct (fd_ltb _ (healthy_feature_pixel_cov_area_ this)); [|reflexivity].
    destruct (fd_ltb _ (healthy_feature_pixel_cov_area_increment_ this)); reflexivity.
Qed.

Lemma run_set_enabled (b : bool) (cs : list cycle) (this : RovioHealthMonitor) :
  run (set_enabled b this) cs = (fst (run this cs), set_enabled b (snd (run this cs))).
Proof.
  revert this. induction cs as [|c cs IH]; intros this; [reflexivity|].
  rewrite !run_cons, call_set_enabled. simpl monitor. simpl returned.
  rewrite IH. reflexivity.
Qed.

End StreakFacts.

(** ** The single-precision difference *)

Section RoundedDifference.

(** Rounding acts on the magnitude: the sign is carried through. *)
Lemma binary_round_abs (prec emax : Z) (s : bool) (m : positive) (e : Z) :
  SFabs (binary_round prec emax s m e) = binary_round prec emax false m e.
Proof.
  unfold binary_round.
  destruct (shl_align m e _) as [mz ez].
  unfold binary_round_aux.
  destruct (shr_fexp prec emax (Z.pos mz) ez loc_Exact) as [mrs' e'].
  destruct (shr_fexp prec emax _ e' loc_Exact) as [mrs'' e''].
  destruct (shr_m mrs'') as [|p|p]; [reflexivity| |reflexivity].
  destruct (e'' <=? emax - prec); reflexivity.
Qed.

Lemma binary_normalize_abs (prec emax D e : Z) :
  SFabs (binary_normalize prec emax D e false)
  = binary_normalize prec emax (Z.abs D) e false.
Proof.
  destruct D as [|p|p]; cbn [binary_normalize Z.abs]; [reflexivity| |];
    apply binary_round_abs.
Qed.

(** A mantissa and exponent of the format are left as they are. *)
Lemma binary_round_canonical (prec emax : Z) (s : bool) (m : positive) (e : Z) :
  bounded prec emax m e = true ->
  binary_round prec emax s m e = S754_finite s m e.
Proof.
  unfold bounded, canonical_mantissa. intros H.
  apply andb_true_iff in H. destruct H as [Hc He].
  apply Z.eqb_eq in Hc.
  unfold binary_round. rewrite Hc.
  unfold shl_align.
  change (IntDef.Z.sub e e) with (e - e). rewrite Z.sub_diag.
  unfold binary_round_aux, shr_fexp.
  cbn [Zdigits2 shr_record_of_loc]. rewrite Hc.
  change (IntDef.Z.sub e e) with (e - e). rewrite Z.sub_diag.
  cbn [shr shr_m loc_of_shr_record round_nearest_even Zdigits2 shr_record_of_loc].
  rewrite Hc.
  change (IntDef.Z.sub e e) with (e - e). rewrite Z.sub_diag.
  cbn [shr shr_m]. rewrite He. reflexivity.
Qed.

Lemma shl_align_mantissa (mx : positive) (ex ez : Z) :
  ez <= ex ->
  Z.pos (fst (shl_align mx ex ez)) = Z.pos mx * 2 ^ (ex - ez).
Proof.
  intros Hle. unfold shl_align.
  change (IntDef.Z.sub ez ex) with (ez - ex).
  destruct (ez - ex) as [|d|d] eqn:Hd; cbn [fst].
  - replace (ex - ez) with 0 by lia. lia.
  - lia.
  - replace (ex - ez) with (Z.pos d) by lia.
    change (PosDef.Pos.iter xO mx d) with (shift_pos d mx).
    rewrite shift_pos_correct, Z.pow_pos_fold. lia.
Qed.

Lemma cond_Zopp_mul (s : bool) (a b : Z) : cond_Zopp s a * b = cond_Zopp s (a * b).
Proof. destruct s; simpl; lia. Qed.

(** What the code computes, [std::abs] of the [float] difference, is the
    exact absolute difference rounded to single precision. *)
Lemma fabs_fsub_rounded (a b : float) :
  binary32_number a -> binary32_number b ->
  fabs (fsub a b) = rounded_abs_difference a b.
Proof.
  intros [Fa Va] [Fb Vb].
  unfold fabs, fsub, rounded_abs_difference, common_exponent.
  destruct a as [sa| | |sa ma ea]; try discriminate;
    destruct b as [sb| | |sb mb eb]; try discriminate;
    cbn [exponent_or mantissa_at SFsub].
  - destruct sa, sb; reflexivity.
  - rewrite Z.min_id, Z.sub_diag, Z.mul_1_r, Z.sub_0_l.
    replace (Z.abs (- cond_Zopp sb (Z.pos mb))) with (Z.pos mb)
      by (destruct sb; reflexivity).
    cbn [binary_normalize SFabs].
    symmetry. apply binary_round_canonical, Vb.
  - rewrite Z.min_id, Z.sub_diag, Z.mul_1_r, Z.sub_0_r.
    replace (Z.abs (cond_Zopp sa (Z.pos ma))) with (Z.pos ma)
      by (destruct sa; reflexivity).
    cbn [binary_normalize SFabs].
    symmetry. apply binary_round_canonical, Va.
  - cbv zeta. rewrite binary_normalize_abs.
    change (IntDef.Z.min ea eb) with (Z.min ea eb).
    rewrite !shl_align_mantissa by lia.
    rewrite !cond_Zopp_mul. reflexivity.
Qed.

Lemma mantissa_at_exact (e : Z) (x : spec_float) :
  e <= exponent_or x e ->
  (F2Q x == inject_Z (mantissa_at e x) * 2 ^ e)%Q.
Proof.
  destruct x as [s|s| |s m ex]; cbn [exponent_or mantissa_at F2Q]; intros Hle;
    try (rewrite Qmult_0_l; reflexivity).
  rewrite inject_Z_mult, Zpower_Qpower by lia.
  rewrite <- Qmult_assoc, <- Qpower_plus by discriminate.
  replace (ex - e + e) with ex by lia. reflexivity.
Qed.

(** The integer that [rounded_abs_difference] rounds is the exact
    absolute difference, scaled by the common exponent. *)
Lemma rounded_abs_difference_exact (a b : spec_float) :
  (exact_abs_difference a b ==
   inject_Z (Z.abs (mantissa_at (common_exponent a b) a
                    - mantissa_at (common_exponent a b) b))
   * 2 ^ common_exponent a b)%Q.
Proof.
  unfold exact_abs_difference.
  set (e := common_exponent a b).
  assert (Ha : e <= exponent_or a e).
  { unfold e, common_exponent. destruct a, b; cbn [exponent_or]; lia. }
  assert (Hb : e <= exponent_or b e).
  { unfold e, common_exponent. destruct a, b; cbn [exponent_or]; lia. }
  rewrite (mantissa_at_exact e a Ha), (mantissa_at_exact e b Hb).
  assert (Hpos : (0 <= 2 ^ e)%Q) by (apply Qpower_0_le; discriminate).
  setoid_replace (inject_Z (mantissa_at e a) * 2 ^ e - inject_Z (mantissa_at e b) * 2 ^ e)%Q
    with (inject_Z (mantissa_at e a - mantissa_at e b) * 2 ^ e)%Q.
  - rewrite Qabs_Qmult, (Qabs_pos _ Hpos). reflexivity.
  - unfold Z.sub. rewrite inject_Z_plus, inject_Z_opp. ring.
Qed.
End RoundedDifference.

(** ** Chains of latching cycles *)

Section RetentionFacts.

Variable norm : Vector3d -> double.

Local Abbreviation call := (call norm).
Local Abbreviation run := (run norm).
Local Abbreviation classified_unhealthy := (classified_unhealthy norm).

(** Healthy cycles that each pass the retention test against the median
    latched just before leave the snapshot of the last one. *)
Lemma retention_chain (cs : list cycle) (c_last : cycle) :
  forall this : RovioHealthMonitor,
    Forall (fun c => ~ classified_unhealthy this c) (cs ++ [c_last]) ->
    Forall (fun c => fd_ltb (median_of c) (healthy_feature_pixel_cov_area_ this) = true)
           (cs ++ [c_last]) ->
    within_increment (healthy_feature_pixel_cov_area_increment_ this)
                     (feature_pixel_cov_area_median (last_safe_pose_ this))
                     (map median_of (cs ++ [c_last])) ->
    last_safe_pose_ (snd (run this (cs ++ [c_last]))) = snapshot_pose c_last.
Proof.
  induction cs as [|c cs IH]; intros this Hh Hlow Hinc.
  - cbn [app map within_increment] in *.
    inversion Hh as [|? ? Hc _]; subst.
    inversion Hlow as [|? ? Hl _]; subst.
    destruct Hinc as [Hi _].
    rewrite run_cons, run_nil. cbn [snd].
    destruct (call_healthy norm this c_last Hc) as (_ & _ & _ & Hq & _).
    rewrite Hq by (split; assumption). reflexivity.
  - rewrite <- app_comm_cons in *.
    inversion Hh as [|? ? Hc Hh']; subst.
    inversion Hlow as [|? ? Hl Hlow']; subst.
    cbn [map within_increment] in Hinc. destruct Hinc as [Hi Hinc'].
    rewrite run_cons. cbn [snd].
    destruct (call_healthy norm this c Hc) as (_ & _ & _ & Hq & _).
    assert (Hm : monitor (call this c) =
                 set_num_subsequent_unhealthy_updates
                   0 (set_last_safe_pose (snapshot_pose c) this))
      by (apply Hq; split; assumption).
    apply IH.
    + eapply Forall_impl; [|exact Hh'].
      intros c' Hc' H. apply Hc'. revert H.
      apply classified_unhealthy_same, same_parameters_sym, call_same_parameters.
    + rewrite Hm. exact Hlow'.
    + rewrite Hm. exact Hinc'.
Qed.

(** On binary32 numbers the chain in single-precision differences is the
    chain the code tests. *)
Lemma within_increment_rounded_code (inc : double) (ms : list float) :
  forall prev : float,
    binary32_number prev ->
    Forall binary32_number ms ->
    within_increment_rounded inc prev ms ->
    within_increment inc prev ms.
Proof.
  induction ms as [|m ms IH]; intros prev Hp Hall H; [exact I|].
  inversion Hall as [|? ? Hm Hms]; subst.
  destruct H as [H1 H2]. split.
  - rewrite (fabs_fsub_rounded m prev Hm Hp). exact H1.
  - apply IH; assumption.
Qed.

Lemma qualifies_rounded_code (this : RovioHealthMonitor) (m : float) :
  binary32_number m ->
  binary32_number (feature_pixel_cov_area_median (last_safe_pose_ this)) ->
  (qualifies_rounded this m <-> qualifies this m).
Proof.
  intros Hm Hr. unfold qualifies_rounded, qualifies.
  rewrite (fabs_fsub_rounded m _ Hm Hr). reflexivity.
Qed.

End RetentionFacts.

(** * The claims *)

Section Claims.

Variable norm : Vector3d -> double.

Local Abbreviation shouldResetEstimator := (shouldResetEstimator norm).
Local Abbreviation call := (call norm).
Local Abbreviation run := (run norm).
Local Abbreviation speed := (speed norm).
Local Abbreviation classified_unhealthy := (classified_unhealthy norm).

(** C1 (amended): the speed is the velocity norm narrowed to [float],
    the local [BvB_norm].  A call takes the unhealthy branch (it counts
    the update up and prints the fault counter) if and only if that speed
    is strictly above
    [velocity_to_consider_static_] and (the speed is strictly above
    [unhealthy_velocity_] or the median is strictly above
    [unhealthy_feature_pixel_cov_area_]); otherwise it takes the healthy
    branch (counter zero, nothing printed, [false] returned).  In
    particular a speed at most [velocity_to_consider_static_] makes the
    cycle healthy whatever the samples are. *)
Theorem C1_unhealthy_test
        (this : RovioHealthMonitor) (samples : list float) (o : StandardOutput) :
  let r := shouldResetEstimator this samples o in
  let median := feature_pixel_cov_area_median_of samples in
  let unhealthy :=
    fd_gtb (speed o) (velocity_to_consider_static_ this) = true /\
    (fd_gtb (speed o) (unhealthy_velocity_ this) = true \/
     fd_gtb median (unhealthy_feature_pixel_cov_area_ this) = true) in
  (unhealthy <-> printed r <> []) /\
  (unhealthy ->
   monitor r =
   set_num_subsequent_unhealthy_updates
     (Int32.incr (num_subsequent_unhealthy_updates_ this)) this /\
   returned r = (Int32.incr (num_subsequent_unhealthy_updates_ this)
                 >? max_subsequent_unhealthy_updates_ this)) /\
  (~ unhealthy ->
   num_subsequent_unhealthy_updates_ (monitor r) = 0 /\
   returned r = false /\ printed r = []) /\
  (fd_leb (speed o) (velocity_to_consider_static_ this) = true ->
   ~ unhealthy /\
   num_subsequent_unhealthy_updates_ (monitor r) = 0 /\ returned r = false) /\
  speed o = match norm (BvB o) with
            | S754_finite s m e => binary_round prec32 emax32 s m e
            | not_finite => not_finite
            end.
Proof.
  intros r median unhealthy.
  assert (Hu : unhealthy ->
               monitor r =
               set_num_subsequent_unhealthy_updates
                 (Int32.incr (num_subsequent_unhealthy_updates_ this)) this /\
               returned r = (Int32.incr (num_subsequent_unhealthy_updates_ this)
                             >? max_subsequent_unhealthy_updates_ this) /\
               printed r <> []).
  { intros H. destruct (call_unhealthy norm this (samples, o) H) as (Hm & Hr & rest & Hp).
    split; [exact Hm|]. split; [exact Hr|].
    change (printed r) with (printed (call this (samples, o))).
    rewrite Hp. discriminate. }
  assert (Hh : ~ unhealthy ->
               num_subsequent_unhealthy_updates_ (monitor r) = 0 /\
               returned r = false /\ printed r = []).
  { intros H. destruct (call_healthy norm this (samples, o) H) as (Hr & Hp & Hn & _).
    split; [exact Hn|]. split; [exact Hr|exact Hp]. }
  split; [|split; [|split; [|split]]].
  5: { change (speed o) with (double_to_float (norm (BvB o))).
       unfold double_to_float. destruct (norm (BvB o)); reflexivity. }
  - split.
    + intros H. apply Hu, H.
    + intros Hp. destruct (classified_unhealthy_dec norm this (samples, o)) as [H|H].
      * exact H.
      * exfalso. apply Hp. apply (Hh H).
  - intros H. destruct (Hu H) as (Hm & Hr & _). split; assumption.
  - exact Hh.
  - intros Hle.
    assert (Hn : ~ unhealthy).
    { intros [Hgt _]. unfold fd_leb in Hle. unfold fd_gtb in Hgt.
      rewrite (leb_not_gtb _ _ Hle) in Hgt. discriminate. }
    split; [exact Hn|]. destruct (Hh Hn) as (H0 & Hr & _). split; assumption.
Qed.

(** C2 (amended): the constructor and every healthy cycle leave the
    counter at zero, and from there, with
    [max_subsequent_unhealthy_updates_ = k] and [0 <= k < INT_MAX], the
    first [k] of [k + 1] consecutive unhealthy cycles return [false] and
    the last returns [true].  Instance: [k = 2], limits 6.0 and 0.1, three
    cycles with speed 7 and median 0 return [false; false; true]. *)
Theorem C2_reset_after_k_plus_1 :
  (forall nh, num_subsequent_unhealthy_updates_ (RovioHealthMonitor_ctor nh) = 0) /\
  (forall this c,
      ~ classified_unhealthy this c ->
      num_subsequent_unhealthy_updates_ (monitor (call this c)) = 0) /\
  (forall (k : nat) this cs,
      max_subsequent_unhealthy_updates_ this = Z.of_nat k ->
      Z.of_nat k < Int32.INT_MAX ->
      num_subsequent_unhealthy_updates_ this = 0 ->
      length cs = S k ->
      Forall (classified_unhealthy this) cs ->
      fst (run this cs) = repeat false k ++ [true]) /\
  (forall this c,
      max_subsequent_unhealthy_updates_ this = 2 ->
      unhealthy_velocity_ this = double_of_Z 6 ->
      velocity_to_consider_static_ this = double_lit 1 10 ->
      num_subsequent_unhealthy_updates_ this = 0 ->
      speed (snd c) = float_of_Z 7 ->
      median_of c = fzero ->
      fst (run this [c; c; c]) = [false; false; true]).
Proof.
  assert (Hmain : forall (k : nat) this cs,
             max_subsequent_unhealthy_updates_ this = Z.of_nat k ->
             Z.of_nat k < Int32.INT_MAX ->
             num_subsequent_unhealthy_updates_ this = 0 ->
             length cs = S k ->
             Forall (classified_unhealthy this) cs ->
             fst (run this cs) = repeat false k ++ [true]).
  { intros k this cs Hmax Hk Hnum Hlen Hall.
    rewrite (run_unhealthy_streak norm cs this Hall).
    - cbn [fst]. rewrite Hnum, Hmax, Hlen, streak_returns_snoc.
      rewrite streak_returns_false by lia.
      replace (0 + Z.of_nat k + 1 >? Z.of_nat k) with true; [reflexivity|].
      symmetry. rewrite Z.gtb_ltb. apply Z.ltb_lt. lia.
    - rewrite Hnum. unfold Int32.INT_MIN. lia.
    - rewrite Hnum, Hlen. lia. }
  split; [reflexivity|]. split; [|split; [exact Hmain|]].
  - intros this c H. apply (call_healthy norm this c H).
  - intros this c Hmax Hv Hs Hnum Hspeed Hmed.
    apply (Hmain 2%nat); try assumption; try reflexivity.
    assert (Hc : classified_unhealthy this c).
    { split; [|left]; rewrite Hspeed, ?Hs, ?Hv; reflexivity. }
    repeat (apply Forall_cons; [exact Hc|]). apply Forall_nil.
Qed.

(** C5: starting with the counter at zero and with
    [k <= max_subsequent_unhealthy_updates_], [k] unhealthy cycles, one
    healthy cycle and [k] more unhealthy cycles return [false] on every
    call; the healthy cycle in between leaves the counter at zero. *)
Theorem C5_single_healthy_cycle_resets
        (k : nat) (this : RovioHealthMonitor) (cs1 cs2 : list cycle) (c : cycle) :
  Int32.in_range (max_subsequent_unhealthy_updates_ this) ->
  num_subsequent_unhealthy_updates_ this = 0 ->
  Z.of_nat k <= max_subsequent_unhealthy_updates_ this ->
  length cs1 = k -> length cs2 = k ->
  Forall (classified_unhealthy this) cs1 ->
  ~ classified_unhealthy this c ->
  Forall (classified_unhealthy this) cs2 ->
  fst (run this (cs1 ++ c :: cs2)) = repeat false (k + 1 + k) /\
  num_subsequent_unhealthy_updates_ (snd (run this (cs1 ++ [c]))) = 0.
Proof.
  intros Hrange Hnum Hk Hl1 Hl2 H1 Hc H2.
  unfold Int32.in_range, Int32.INT_MIN, Int32.INT_MAX in Hrange.
  assert (Hrun1 : run this cs1 =
                  (repeat false k,
                   set_num_subsequent_unhealthy_updates (Z.of_nat k) this)).
  { rewrite (run_unhealthy_streak norm cs1 this H1).
    - rewrite Hnum, Hl1, streak_returns_false by lia. reflexivity.
    - rewrite Hnum. unfold Int32.INT_MIN. lia.
    - rewrite Hnum, Hl1. unfold Int32.INT_MAX. lia. }
  set (this1 := set_num_subsequent_unhealthy_updates (Z.of_nat k) this) in *.
  assert (Hp1 : same_parameters this this1) by (repeat split).
  assert (Hc1 : ~ classified_unhealthy this1 c).
  { intros H. apply Hc. revert H. apply classified_unhealthy_same_iff, Hp1. }
  destruct (call_healthy norm this1 c Hc1) as (Hr & _ & Hzero & _).
  split.
  - rewrite run_app, Hrun1. cbn [fst snd].
    rewrite run_cons. cbn [fst]. rewrite Hr.
    set (this2 := monitor (call this1 c)) in *.
    assert (Hp2 : same_parameters this this2).
    { eapply same_parameters_trans; [exact Hp1|apply call_same_parameters]. }
    rewrite (run_unhealthy_streak norm cs2 this2).
    + cbn [fst]. rewrite Hzero, Hl2.
      destruct Hp2 as (_ & _ & <- & _).
      rewrite streak_returns_false by lia.
      rewrite <- Nat.add_assoc, repeat_app. reflexivity.
    + eapply Forall_impl; [|exact H2].
      intros c'. apply classified_unhealthy_same, Hp2.
    + rewrite Hzero. unfold Int32.INT_MIN. lia.
    + rewrite Hzero, Hl2. unfold Int32.INT_MAX. lia.
  - rewrite run_app, Hrun1. cbn [snd]. rewrite run_cons. cbn [snd]. exact Hzero.
Qed.

(** C6 (amended): a call that returns [true] leaves the counter at its
    incremented value, above the limit; every unhealthy cycle that
    follows returns [true] as well, as long as the counter has not gone
    past [INT_MAX]; and the first healthy cycle after that puts the counter
    back to zero and returns [false]. *)
Theorem C6_true_repeats_until_healthy (this : RovioHealthMonitor) (c : cycle) :
  returned (call this c) = true ->
  let this' := monitor (call this c) in
  num_subsequent_unhealthy_updates_ this' =
    Int32.incr (num_subsequent_unhealthy_updates_ this) /\
  num_subsequent_unhealthy_updates_ this' > max_subsequent_unhealthy_updates_ this' /\
  (forall cs,
      Forall (classified_unhealthy this') cs ->
      num_subsequent_unhealthy_updates_ this' + Z.of_nat (length cs) <= Int32.INT_MAX ->
      fst (run this' cs) = repeat true (length cs) /\
      num_subsequent_unhealthy_updates_ (snd (run this' cs)) =
        num_subsequent_unhealthy_updates_ this' + Z.of_nat (length cs)) /\
  (forall cs c',
      ~ classified_unhealthy this' c' ->
      let r := call (snd (run this' cs)) c' in
      returned r = false /\ num_subsequent_unhealthy_updates_ (monitor r) = 0).
Proof.
  intros Htrue this'.
  assert (Hc : classified_unhealthy this c).
  { destruct (classified_unhealthy_dec norm this c) as [H|H]; [exact H|].
    destruct (call_healthy norm this c H) as (Hr & _). congruence. }
  destruct (call_unhealthy norm this c Hc) as (Hm & Hr & _). cbv zeta in Hm, Hr.
  assert (Hnum : num_subsequent_unhealthy_updates_ this' =
                 Int32.incr (num_subsequent_unhealthy_updates_ this)).
  { unfold this'. rewrite Hm. reflexivity. }
  assert (Hmax : max_subsequent_unhealthy_updates_ this' =
                 max_subsequent_unhealthy_updates_ this).
  { unfold this'. rewrite Hm. reflexivity. }
  assert (Hgt : num_subsequent_unhealthy_updates_ this' >
                max_subsequent_unhealthy_updates_ this').
  { rewrite Hnum, Hmax. rewrite Hr in Htrue.
    rewrite Z.gtb_ltb in Htrue. apply Z.ltb_lt in Htrue. lia. }
  split; [exact Hnum|]. split; [exact Hgt|]. split.
  - intros cs Hall Hbound.
    rewrite (run_unhealthy_streak norm cs this' Hall).
    + simpl. split; [|reflexivity]. apply streak_returns_true. lia.
    + rewrite Hnum. apply Int32Facts.wrap_in_range.
    + exact Hbound.
  - intros cs c' Hc' r.
    assert (Hh : ~ classified_unhealthy (snd (run this' cs)) c').
    { intros H. apply Hc'. revert H.
      apply classified_unhealthy_same, same_parameters_sym, run_same_parameters. }
    destruct (call_healthy norm _ c' Hh) as (Hr' & _ & Hz & _).
    split; assumption.
Qed.

(** C9: an unhealthy cycle, whether the call returns [true] or [false],
    leaves the retained failsafe pose (position, orientation, median) as
    it was, and so does any streak of unhealthy cycles; a call that
    changes the pose was a healthy one. *)
Theorem C9_unhealthy_keeps_failsafe_pose (this : RovioHealthMonitor) :
  (forall c,
      classified_unhealthy this c ->
      last_safe_pose_ (monitor (call this c)) = last_safe_pose_ this /\
      failsafe_WrWB_of (monitor (call this c)) = failsafe_WrWB_of this /\
      failsafe_qBW_of (monitor (call this c)) = failsafe_qBW_of this) /\
  (forall cs,
      Forall (classified_unhealthy this) cs ->
      last_safe_pose_ (snd (run this cs)) = last_safe_pose_ this) /\
  (forall c,
      last_safe_pose_ (monitor (call this c)) <> last_safe_pose_ this ->
      ~ classified_unhealthy this c /\ returned (call this c) = false).
Proof.
  assert (H1 : forall c, classified_unhealthy this c ->
                         last_safe_pose_ (monitor (call this c)) = last_safe_pose_ this).
  { intros c Hc. destruct (call_unhealthy norm this c Hc) as (-> & _). reflexivity. }
  split; [|split].
  - intros c Hc. unfold failsafe_WrWB_of, failsafe_qBW_of.
    rewrite (H1 c Hc). repeat split.
  - intros cs Hall. apply run_unhealthy_pose, Hall.
  - intros c Hneq.
    assert (Hh : ~ classified_unhealthy this c).
    { intros Hc. apply Hneq, H1, Hc. }
    split; [exact Hh|]. apply (call_healthy norm this c Hh).
Qed.

(** C10: two monitors that differ at most in [enabled_] return the same
    values on the same cycles and end with the same counter and the same
    retained pose, each with its own flag unchanged; every call prints
    the same too.  The flag is only ever handed out by [enabled()]. *)
Theorem C10_enabled_flag_is_not_read
        (a b : RovioHealthMonitor) (cs : list cycle) :
  differ_only_in_enabled a b ->
  fst (run a cs) = fst (run b cs) /\
  num_subsequent_unhealthy_updates_ (snd (run a cs)) =
    num_subsequent_unhealthy_updates_ (snd (run b cs)) /\
  last_safe_pose_ (snd (run a cs)) = last_safe_pose_ (snd (run b cs)) /\
  differ_only_in_enabled (snd (run a cs)) (snd (run b cs)) /\
  enabled (snd (run a cs)) = enabled a /\
  enabled (snd (run b cs)) = enabled b /\
  (forall c, printed (call a c) = printed (call b c)).
Proof.
  intros Hab. unfold differ_only_in_enabled in *.
  assert (Ha : a = set_enabled (enabled_ a) (set_enabled false a))
    by (destruct a; reflexivity).
  assert (Hb : b = set_enabled (enabled_ b) (set_enabled false b))
    by (destruct b; reflexivity).
  set (base := set_enabled false a) in *.
  rewrite <- Hab in Hb.
  rewrite Ha, Hb, !run_set_enabled. cbn [fst snd].
  repeat split.
  intros c. rewrite !call_set_enabled. reflexivity.
Qed.

(** C3 (amended): on a healthy cycle the retained failsafe pose becomes
    the snapshot of the cycle (position, orientation, computed median)
    when the median is strictly below [healthy_feature_pixel_cov_area_]
    and the absolute difference to the retained median, formed in single
    precision ([std::abs] of the [float] subtraction), is strictly below
    [healthy_feature_pixel_cov_area_increment_]; when that test fails the
    retained pose stays as it was.  For binary32 numbers the difference
    formed is the exact absolute difference rounded to the nearest
    [float].  The constructor retains the zero position, the identity
    orientation and the median zero. *)
Theorem C3_failsafe_update (this : RovioHealthMonitor) (c : cycle) :
  ~ classified_unhealthy this c ->
  (qualifies this (median_of c) ->
   last_safe_pose_ (monitor (call this c)) =
   {| failsafe_WrWB := WrWB (snd c);
      failsafe_qBW := qBW (snd c);
      feature_pixel_cov_area_median := feature_pixel_cov_area_median_of (fst c) |}) /\
  (~ qualifies this (median_of c) ->
   last_safe_pose_ (monitor (call this c)) = last_safe_pose_ this) /\
  (last_safe_pose_ (monitor (call this c)) <> last_safe_pose_ this ->
   qualifies this (median_of c)) /\
  (binary32_number (median_of c) ->
   binary32_number (feature_pixel_cov_area_median (last_safe_pose_ this)) ->
   (qualifies_rounded this (median_of c) ->
    last_safe_pose_ (monitor (call this c)) =
    {| failsafe_WrWB := WrWB (snd c);
       failsafe_qBW := qBW (snd c);
       feature_pixel_cov_area_median := feature_pixel_cov_area_median_of (fst c) |}) /\
   (~ qualifies_rounded this (median_of c) ->
    last_safe_pose_ (monitor (call this c)) = last_safe_pose_ this) /\
   (exact_abs_difference (median_of c)
                         (feature_pixel_cov_area_median (last_safe_pose_ this)) ==
    inject_Z
      (Z.abs (mantissa_at
                (common_exponent
                   (median_of c) (feature_pixel_cov_area_median (last_safe_pose_ this)))
                (median_of c)
              - mantissa_at
                  (common_exponent
                     (median_of c) (feature_pixel_cov_area_median (last_safe_pose_ this)))
                  (feature_pixel_cov_area_median (last_safe_pose_ this))))
    * 2 ^ common_exponent
            (median_of c) (feature_pixel_cov_area_median (last_safe_pose_ this)))%Q) /\
  (forall nh,
      last_safe_pose_ (RovioHealthMonitor_ctor nh) =
      {| failsafe_WrWB := Vector3d_Zero;
         failsafe_qBW := RotationQuaternionPD_identity;
         feature_pixel_cov_area_median := fzero |}).
Proof.
  intros Hh.
  destruct (call_healthy norm this c Hh) as (_ & _ & _ & Hq & Hn).
  split; [|split; [|split; [|split]]].
  - intros Q. rewrite (Hq Q). reflexivity.
  - intros Q. rewrite (Hn Q). reflexivity.
  - intros Hneq. destruct (qualifies_dec this (median_of c)) as [Q|Q]; [exact Q|].
    exfalso. apply Hneq. rewrite (Hn Q). reflexivity.
  - intros Nm Nr.
    pose proof (qualifies_rounded_code this (median_of c) Nm Nr) as Hiff.
    split; [|split].
    + intros Q. apply Hiff in Q. rewrite (Hq Q). reflexivity.
    + intros Q. rewrite Hn; [reflexivity|].
      intros Q'. apply Q, Hiff, Q'.
    + apply rounded_abs_difference_exact.
  - intros nh. reflexivity.
Qed.

(** C7 (amended): the differences are the single-precision ones, the
    exact absolute difference of two medians rounded to the nearest
    [float].  After a sequence of healthy cycles whose medians are
    binary32 numbers, all strictly below
    [healthy_feature_pixel_cov_area_], the first with a difference to the
    median retained before the sequence strictly below the increment and
    each later one with a difference to the one before it strictly below
    the increment, the retained pose is the snapshot of the last cycle.
    A healthy cycle whose difference to the retained median is at least
    the increment leaves the retained pose as it was. *)
Theorem C7_failsafe_retention
        (this : RovioHealthMonitor) (cs : list cycle) (c_last : cycle) :
  Forall (fun c => ~ classified_unhealthy this c) (cs ++ [c_last]) ->
  Forall (fun c => fd_ltb (median_of c) (healthy_feature_pixel_cov_area_ this) = true)
         (cs ++ [c_last]) ->
  Forall (fun c => binary32_number (median_of c)) (cs ++ [c_last]) ->
  binary32_number (feature_pixel_cov_area_median (last_safe_pose_ this)) ->
  within_increment_rounded (healthy_feature_pixel_cov_area_increment_ this)
                           (feature_pixel_cov_area_median (last_safe_pose_ this))
                           (map median_of (cs ++ [c_last])) ->
  last_safe_pose_ (snd (run this (cs ++ [c_last]))) = snapshot_pose c_last /\
  (forall that c,
      ~ classified_unhealthy that c ->
      binary32_number (median_of c) ->
      binary32_number (feature_pixel_cov_area_median (last_safe_pose_ that)) ->
      leb (healthy_feature_pixel_cov_area_increment_ that)
          (float_to_double
             (rounded_abs_difference
                (median_of c)
                (feature_pixel_cov_area_median (last_safe_pose_ that))))
      = true ->
      last_safe_pose_ (monitor (call that c)) = last_safe_pose_ that).
Proof.
  intros Hh Hlow Hnum Hret Hinc. split.
  - apply retention_chain; [exact Hh|exact Hlow|].
    apply within_increment_rounded_code; [exact Hret| |exact Hinc].
    apply Forall_map. exact Hnum.
  - intros that c Hc Nm Nr Hfar.
    destruct (call_healthy norm that c Hc) as (_ & _ & _ & _ & Hn).
    rewrite Hn; [reflexivity|].
    intros [_ Hnear]. unfold fd_ltb in Hnear.
    rewrite (fabs_fsub_rounded _ _ Nm Nr) in Hnear.
    rewrite (leb_not_ltb _ _ Hfar) in Hnear. discriminate.
Qed.

(** C8: with [unhealthy_feature_pixel_cov_area_] positive, a call without
    samples computes the median zero, the comparison of the median with
    that limit fails, and the cycle is unhealthy exactly when the speed is
    above both velocity limits. *)
Theorem C8_empty_samples (this : RovioHealthMonitor) (o : StandardOutput) :
  ltb (S754_zero false) (unhealthy_feature_pixel_cov_area_ this) = true ->
  feature_pixel_cov_area_median_of [] = fzero /\
  fd_gtb (feature_pixel_cov_area_median_of [])
         (unhealthy_feature_pixel_cov_area_ this) = false /\
  (classified_unhealthy this ([], o) <->
   fd_gtb (speed o) (velocity_to_consider_static_ this) = true /\
   fd_gtb (speed o) (unhealthy_velocity_ this) = true) /\
  (printed (shouldResetEstimator this [] o) <> [] <->
   fd_gtb (speed o) (velocity_to_consider_static_ this) = true /\
   fd_gtb (speed o) (unhealthy_velocity_ this) = true).
Proof.
  intros Hpos.
  assert (Hmed : fd_gtb (feature_pixel_cov_area_median_of [])
                        (unhealthy_feature_pixel_cov_area_ this) = false).
  { apply (ltb_asym _ _ Hpos). }
  assert (Hiff : classified_unhealthy this ([], o) <->
                 fd_gtb (speed o) (velocity_to_consider_static_ this) = true /\
                 fd_gtb (speed o) (unhealthy_velocity_ this) = true).
  { split.
    - intros [Hs [Hv|Hm]]; [split; assumption|].
      unfold median_of in Hm. cbn [fst] in Hm. congruence.
    - intros [Hs Hv]. split; [exact Hs|left; exact Hv]. }
  split; [reflexivity|]. split; [exact Hmed|]. split; [exact Hiff|].
  rewrite <- Hiff. split.
  - intros Hp. destruct (classified_unhealthy_dec norm this ([], o)) as [H|H]; [exact H|].
    exfalso. apply Hp. apply (call_healthy norm this ([], o) H).
  - intros H. destruct (call_unhealthy norm this ([], o) H) as (_ & _ & rest & Hp).
    change (shouldResetEstimator this [] o) with (call this ([], o)).
    rewrite Hp. discriminate.
Qed.

End Claims.

(** C4 (amended): without samples the median is zero.  For samples
    without NaN it is the element of rank [size / 2] (from 0) in
    ascending order: it is one of the samples, at most [size / 2] samples
    are below it and fewer than [size - size / 2] above it, so that for
    an even size it is the upper of the two middle elements; the rank
    fixes the number, and every rearrangement that meets the contract of
    [std::nth_element] has that number at the middle index.  Whatever the
    samples, the element at the middle index of a rearrangement that
    meets the contract has that rank. *)
Theorem C4_median_is_upper_middle :
  feature_pixel_cov_area_median_of [] = fzero /\
  (forall samples : list float,
      samples <> [] ->
      let k := (length samples / 2)%nat in
      (forall v', nth_element_post k samples v' ->
                  order_statistic k samples (nth k v' fzero)) /\
      (no_nan samples ->
       let m := feature_pixel_cov_area_median_of samples in
       order_statistic k samples m /\
       (Nat.even (length samples) = true ->
        (2 * count_above m samples < length samples)%nat) /\
       (forall m', order_statistic k samples m' -> equiv m m') /\
       (forall v', nth_element_post k samples v' -> equiv m (nth k v' fzero)))).
Proof.
  split; [reflexivity|].
  intros samples Hne k.
  split; [intros v' Hpost; apply nth_element_post_rank, Hpost|].
  intros Hnan m.
  assert (Hlen : (0 < length samples)%nat).
  { destruct samples; [congruence|simpl; lia]. }
  assert (Hk : (k < length samples)%nat).
  { unfold k. apply Nat.div_lt; lia. }
  assert (Hm : m = nth k (nth_element k samples) fzero).
  { unfold m, k. destruct samples; [congruence|reflexivity]. }
  assert (Hrank : order_statistic k samples m).
  { rewrite Hm. apply nth_element_post_rank, nth_element_spec, Hk. }
  split; [exact Hrank|]. split; [|split].
  - intros Heven. destruct Hrank as (_ & _ & Habove).
    apply Nat.even_spec in Heven. destruct Heven as [h Hh].
    assert (k = h).
    { unfold k. rewrite Hh, Nat.mul_comm. apply Nat.div_mul. lia. }
    lia.
  - intros m' Hm'. eapply order_statistic_unique; eassumption.
  - intros v' Hpost. eapply order_statistic_unique; [exact Hnan|exact Hrank|].
    apply nth_element_post_rank, Hpost.
Qed.

(** * The claims on concrete monitors and cycles *)

Lemma fast_cycle_unhealthy (this : RovioHealthMonitor) :
  velocity_to_consider_static_ this = double_lit 1 10 ->
  unhealthy_velocity_ this = double_of_Z 6 ->
  classified_unhealthy Eigen_norm this fast_cycle.
Proof.
  intros Hs Hv. split; [rewrite Hs|left; rewrite Hv]; vm_compute; reflexivity.
Qed.

Lemma still_cycle_healthy (this : RovioHealthMonitor) (px : Z) (samples : list float) :
  velocity_to_consider_static_ this = double_lit 1 10 ->
  ~ classified_unhealthy Eigen_norm this (still_cycle px samples).
Proof.
  intros Hs [H _]. rewrite Hs in H. vm_compute in H. discriminate.
Qed.

Lemma C1_witness :
  num_subsequent_unhealthy_updates_
    (monitor (shouldResetEstimator Eigen_norm weary_monitor
                                   [float_of_Z 100] (output_at 0 0))) = 0 /\
  returned (shouldResetEstimator Eigen_norm weary_monitor
                                 [float_of_Z 100] (output_at 0 0)) = false.
Proof.
  destruct (C1_unhealthy_test Eigen_norm weary_monitor [float_of_Z 100] (output_at 0 0))
    as (_ & _ & _ & H & _).
  apply H. vm_compute. reflexivity.
Defined.

(** C1 as stated, on the default monitor with the velocity (0.1, 0, 0)
    and one sample 6.0: the norm is the limit 0.1 and not above it, yet
    the call counts the update up and prints the fault counter; narrowed
    to [float] the norm is above the limit. *)
Lemma C1_counterexample :
  Eigen_norm (BvB creeping_output) = velocity_to_consider_static_ default_monitor /\
  gtb (Eigen_norm (BvB creeping_output))
      (velocity_to_consider_static_ default_monitor) = false /\
  leb (Eigen_norm (BvB creeping_output))
      (velocity_to_consider_static_ default_monitor) = true /\
  printed (shouldResetEstimator Eigen_norm default_monitor [float_of_Z 6]
                                creeping_output)
  = [FaultCounter 1 2] /\
  num_subsequent_unhealthy_updates_
    (monitor (shouldResetEstimator Eigen_norm default_monitor [float_of_Z 6]
                                   creeping_output)) = 1 /\
  fd_gtb (speed Eigen_norm creeping_output)
         (velocity_to_consider_static_ default_monitor) = true.
Proof. repeat split; vm_compute; reflexivity. Qed.

Lemma C2_witness :
  fst (run Eigen_norm default_monitor [fast_cycle; fast_cycle; fast_cycle])
  = [false; false; true].
Proof.
  destruct (C2_reset_after_k_plus_1 Eigen_norm) as (_ & _ & H & _).
  apply (H 2%nat); try reflexivity.
  repeat (apply Forall_cons; [split; [|left]; vm_compute; reflexivity|]).
  apply Forall_nil.
Defined.

(** C2 as stated, at [k = INT_MAX]: the counter starts at zero, all of
    the [k + 1] cycles are unhealthy, and the last call returns [false]
    like the others. *)
Lemma C2_counterexample :
  max_subsequent_unhealthy_updates_ patient_monitor
  = Z.of_nat (Z.to_nat Int32.INT_MAX) /\
  num_subsequent_unhealthy_updates_ patient_monitor = 0 /\
  length (repeat fast_cycle (S (Z.to_nat Int32.INT_MAX))) = S (Z.to_nat Int32.INT_MAX) /\
  Forall (classified_unhealthy Eigen_norm patient_monitor)
         (repeat fast_cycle (S (Z.to_nat Int32.INT_MAX))) /\
  fst (run Eigen_norm patient_monitor (repeat fast_cycle (S (Z.to_nat Int32.INT_MAX))))
  = repeat false (S (Z.to_nat Int32.INT_MAX)) /\
  fst (run Eigen_norm patient_monitor (repeat fast_cycle (S (Z.to_nat Int32.INT_MAX))))
  <> repeat false (Z.to_nat Int32.INT_MAX) ++ [true].
Proof.
  assert (HK : Z.of_nat (Z.to_nat Int32.INT_MAX) = Int32.INT_MAX).
  { apply Z2Nat.id. unfold Int32.INT_MAX. lia. }
  generalize dependent (Z.to_nat Int32.INT_MAX). intros k HK.
  assert (Hall : Forall (classified_unhealthy Eigen_norm patient_monitor)
                        (repeat fast_cycle (S k))).
  { apply Forall_forall. intros c Hc. apply repeat_spec in Hc. subst c.
    apply fast_cycle_unhealthy; reflexivity. }
  assert (Hrun : fst (run Eigen_norm patient_monitor (repeat fast_cycle (S k)))
                 = repeat false (S k)).
  { apply run_unhealthy_past_INT_MAX; try assumption; try reflexivity.
    apply repeat_length. }
  split; [rewrite HK; reflexivity|]. split; [reflexivity|].
  split; [apply repeat_length|]. split; [exact Hall|]. split; [exact Hrun|].
  rewrite Hrun, repeat_snoc. intros H.
  apply app_inj_tail in H. destruct H as [_ H]. discriminate.
Qed.

Lemma C3_witness :
  last_safe_pose_
    (monitor (call Eigen_norm default_monitor (still_cycle 5 [float_lit 1 4])))
  = {| failsafe_WrWB := WrWB (output_at 5 0);
       failsafe_qBW := qBW (output_at 5 0);
       feature_pixel_cov_area_median := float_lit 1 4 |}.
Proof.
  assert (Hh : ~ classified_unhealthy Eigen_norm default_monitor
                 (still_cycle 5 [float_lit 1 4])).
  { apply still_cycle_healthy. reflexivity. }
  destruct (C3_failsafe_update Eigen_norm default_monitor
                               (still_cycle 5 [float_lit 1 4]) Hh)
    as (_ & _ & _ & H & _).
  destruct H as (H & _).
  - split; vm_compute; reflexivity.
  - split; vm_compute; reflexivity.
  - apply H. split; vm_compute; reflexivity.
Defined.

(** C3 as stated, on the default monitor that retains the median 2^-26
    and a healthy cycle with the median 0.3f: the median is below 1.0 and
    the absolute difference of the two medians is below the increment
    0.3, yet the retained pose is not overwritten: in single precision
    the difference is 0.3f, which is above the increment. *)
Lemma C3_counterexample :
  ~ classified_unhealthy Eigen_norm nudged_monitor (still_cycle 2 [float_lit 3 10]) /\
  median_of (still_cycle 2 [float_lit 3 10]) = float_lit 3 10 /\
  feature_pixel_cov_area_median (last_safe_pose_ nudged_monitor)
  = float_lit 1 67108864 /\
  (F2Q (float_lit 3 10) < F2Q (healthy_feature_pixel_cov_area_ nudged_monitor))%Q /\
  (exact_abs_difference (float_lit 3 10) (float_lit 1 67108864)
   < F2Q (healthy_feature_pixel_cov_area_increment_ nudged_monitor))%Q /\
  last_safe_pose_
    (monitor (call Eigen_norm nudged_monitor (still_cycle 2 [float_lit 3 10])))
  = last_safe_pose_ nudged_monitor /\
  last_safe_pose_
    (monitor (call Eigen_norm nudged_monitor (still_cycle 2 [float_lit 3 10])))
  <> snapshot_pose (still_cycle 2 [float_lit 3 10]) /\
  monitor (call Eigen_norm default_monitor (still_cycle 1 [float_lit 1 67108864]))
  = nudged_monitor /\
  fabs (fsub (float_lit 3 10) (float_lit 1 67108864)) = float_lit 3 10.
Proof.
  split; [apply still_cycle_healthy; reflexivity|].
  split; [vm_compute; reflexivity|].
  split; [vm_compute; reflexivity|].
  split; [vm_compute; reflexivity|].
  split; [vm_compute; reflexivity|].
  split; [vm_compute; reflexivity|].
  split; [vm_compute; discriminate|].
  split; vm_compute; reflexivity.
Qed.

Lemma C4_witness :
  order_statistic 1 two_samples (float_of_Z 2) /\
  (2 * count_above (float_of_Z 2) two_samples < 2)%nat.
Proof.
  destruct C4_median_is_upper_middle as (_ & H).
  assert (Hne : two_samples <> []) by discriminate.
  destruct (H two_samples Hne) as (_ & Hnum).
  destruct Hnum as (Hrank & Heven & _); [repeat constructor|].
  split; [exact Hrank|]. apply Heven. reflexivity.
Defined.

(** C4 as stated, on the samples 1.0 and 2.0: the lower-middle element
    is 1.0, the median computed is 2.0. *)
Lemma C4_counterexample :
  order_statistic (lower_middle_index two_samples) two_samples (float_of_Z 1) /\
  feature_pixel_cov_area_median_of two_samples = float_of_Z 2 /\
  ~ order_statistic (lower_middle_index two_samples) two_samples
      (feature_pixel_cov_area_median_of two_samples).
Proof.
  split; [|split].
  - split; [left; reflexivity|]. vm_compute. split; lia.
  - vm_compute. reflexivity.
  - intros (_ & Hbelow & _). vm_compute in Hbelow. lia.
Qed.

Lemma C5_witness :
  fst (run Eigen_norm default_monitor
           ([fast_cycle; fast_cycle] ++ still_cycle 0 [] :: [fast_cycle; fast_cycle]))
  = repeat false (2 + 1 + 2) /\
  num_subsequent_unhealthy_updates_
    (snd (run Eigen_norm default_monitor ([fast_cycle; fast_cycle] ++ [still_cycle 0 []])))
  = 0.
Proof.
  apply (C5_single_healthy_cycle_resets Eigen_norm 2%nat).
  - vm_compute. split; discriminate.
  - reflexivity.
  - vm_compute. discriminate.
  - reflexivity.
  - reflexivity.
  - repeat (apply Forall_cons; [apply fast_cycle_unhealthy; reflexivity|]).
    apply Forall_nil.
  - apply still_cycle_healthy. reflexivity.
  - repeat (apply Forall_cons; [apply fast_cycle_unhealthy; reflexivity|]).
    apply Forall_nil.
Defined.

Lemma C6_witness :
  fst (run Eigen_norm
           (monitor (call Eigen_norm
                          (set_num_subsequent_unhealthy_updates 2 default_monitor)
                          fast_cycle))
           [fast_cycle; fast_cycle])
  = [true; true].
Proof.
  assert (Htrue : returned (call Eigen_norm
                                 (set_num_subsequent_unhealthy_updates 2 default_monitor)
                                 fast_cycle) = true)
    by (vm_compute; reflexivity).
  destruct (C6_true_repeats_until_healthy Eigen_norm _ _ Htrue) as (_ & _ & H & _).
  apply (H [fast_cycle; fast_cycle]).
  - repeat (apply Forall_cons; [apply fast_cycle_unhealthy; reflexivity|]).
    apply Forall_nil.
  - vm_compute. discriminate.
Defined.

(** C6 as stated, on the default monitor after [INT_MAX - 1] unhealthy
    updates in a row (the state that many fast cycles lead to): the next
    unhealthy call returns [true], the unhealthy call after it returns
    [false]. *)
Lemma C6_counterexample :
  snd (run Eigen_norm default_monitor
           (repeat fast_cycle (Z.to_nat (Int32.INT_MAX - 1))))
  = weary_monitor /\
  classified_unhealthy Eigen_norm weary_monitor fast_cycle /\
  returned (call Eigen_norm weary_monitor fast_cycle) = true /\
  classified_unhealthy Eigen_norm (monitor (call Eigen_norm weary_monitor fast_cycle))
                       fast_cycle /\
  returned (call Eigen_norm (monitor (call Eigen_norm weary_monitor fast_cycle))
                 fast_cycle) = false.
Proof.
  split; [|split; [|split; [|split]]].
  - assert (HK : Z.of_nat (Z.to_nat (Int32.INT_MAX - 1)) = Int32.INT_MAX - 1).
    { apply Z2Nat.id. unfold Int32.INT_MAX. lia. }
    generalize dependent (Z.to_nat (Int32.INT_MAX - 1)). intros k HK.
    rewrite run_unhealthy_streak.
    + cbn [snd]. rewrite repeat_length, HK. reflexivity.
    + apply Forall_forall. intros c Hc. apply repeat_spec in Hc. subst c.
      apply fast_cycle_unhealthy; reflexivity.
    + vm_compute. discriminate.
    + rewrite repeat_length, HK. vm_compute. discriminate.
  - apply fast_cycle_unhealthy; reflexivity.
  - vm_compute. reflexivity.
  - apply fast_cycle_unhealthy; reflexivity.
  - vm_compute. reflexivity.
Qed.

Lemma C7_witness :
  last_safe_pose_ (snd (run Eigen_norm default_monitor (settling_cycles ++ [settled_cycle])))
  = snapshot_pose settled_cycle.
Proof.
  apply (C7_failsafe_retention Eigen_norm default_monitor settling_cycles settled_cycle).
  - repeat (apply Forall_cons; [apply still_cycle_healthy; reflexivity|]).
    apply Forall_nil.
  - repeat (apply Forall_cons; [vm_compute; reflexivity|]). apply Forall_nil.
  - repeat (apply Forall_cons; [split; vm_compute; reflexivity|]). apply Forall_nil.
  - split; vm_compute; reflexivity.
  - vm_compute. repeat split.
Defined.

(** C7 as stated, on the default monitor and three healthy cycles with
    medians 0.75, 0.625, 0.5: strictly decreasing, all below 1.0,
    consecutive differences below 0.3; the pose retained at the end is
    still the one of the constructor, not the snapshot of the last
    cycle. *)
Lemma C7_counterexample :
  Forall (fun c => ~ classified_unhealthy Eigen_norm default_monitor c) drifting_cycles /\
  map median_of drifting_cycles = [float_lit 3 4; float_lit 5 8; float_lit 1 2] /\
  ltb (float_lit 5 8) (float_lit 3 4) = true /\
  ltb (float_lit 1 2) (float_lit 5 8) = true /\
  Forall (fun c => fd_ltb (median_of c)
                          (healthy_feature_pixel_cov_area_ default_monitor) = true)
         drifting_cycles /\
  within_increment (healthy_feature_pixel_cov_area_increment_ default_monitor)
                   (float_lit 3 4) [float_lit 5 8; float_lit 1 2] /\
  (exact_abs_difference (float_lit 5 8) (float_lit 3 4)
   < F2Q (healthy_feature_pixel_cov_area_increment_ default_monitor))%Q /\
  (exact_abs_difference (float_lit 1 2) (float_lit 5 8)
   < F2Q (healthy_feature_pixel_cov_area_increment_ default_monitor))%Q /\
  last_safe_pose_ (snd (run Eigen_norm default_monitor drifting_cycles))
  = RovioFailsafePose_ctor /\
  last_safe_pose_ (snd (run Eigen_norm default_monitor drifting_cycles))
  <> snapshot_pose (still_cycle 3 [float_lit 1 2]).
Proof.
  split.
  { repeat (apply Forall_cons; [apply still_cycle_healthy; reflexivity|]).
    apply Forall_nil. }
  split; [vm_compute; reflexivity|].
  split; [vm_compute; reflexivity|].
  split; [vm_compute; reflexivity|].
  split.
  { repeat (apply Forall_cons; [vm_compute; reflexivity|]). apply Forall_nil. }
  split; [vm_compute; repeat split|].
  split; [vm_compute; reflexivity|].
  split; [vm_compute; reflexivity|].
  split; [vm_compute; reflexivity|].
  vm_compute. discriminate.
Qed.

Lemma C8_witness :
  classified_unhealthy Eigen_norm default_monitor fast_cycle <->
  fd_gtb (speed Eigen_norm (output_at 0 7))
         (velocity_to_consider_static_ default_monitor) = true /\
  fd_gtb (speed Eigen_norm (output_at 0 7)) (unhealthy_velocity_ default_monitor) = true.
Proof.
  assert (Hpos : ltb (S754_zero false)
                     (unhealthy_feature_pixel_cov_area_ default_monitor) = true)
    by (vm_compute; reflexivity).
  destruct (C8_empty_samples Eigen_norm default_monitor (output_at 0 7) Hpos)
    as (_ & _ & H & _).
  exact H.
Defined.

Lemma C9_witness :
  last_safe_pose_ (monitor (call Eigen_norm weary_monitor fast_cycle))
  = last_safe_pose_ weary_monitor.
Proof.
  destruct (C9_unhealthy_keeps_failsafe_pose Eigen_norm weary_monitor) as (H & _).
  apply (H fast_cycle). apply fast_cycle_unhealthy; reflexivity.
Defined.

Lemma C10_witness :
  fst (run Eigen_norm default_monitor [fast_cycle; fast_cycle; fast_cycle])
  = fst (run Eigen_norm (set_enabled true default_monitor)
             [fast_cycle; fast_cycle; fast_cycle]).
Proof.
  apply (C10_enabled_flag_is_not_read Eigen_norm default_monitor
                                      (set_enabled true default_monitor)).
  reflexivity.
Defined.

(** * Further properties of the monitor *)

(** ** The reset policy as a state machine *)

Section ResetPolicy.

Variable norm : Vector3d -> double.

Local Abbreviation call := (call norm).
Local Abbreviation run := (run norm).
Local Abbreviation classified_unhealthy := (classified_unhealthy norm).

Lemma unhealthy_b_true (this : RovioHealthMonitor) (c : cycle) :
  unhealthy_b norm this c = true <-> classified_unhealthy this c.
Proof. symmetry. apply classified_unhealthy_test. Qed.

Lemma unhealthy_b_false (this : RovioHealthMonitor) (c : cycle) :
  unhealthy_b norm this c = false <-> ~ classified_unhealthy this c.
Proof.
  rewrite <- unhealthy_b_true. destruct (unhealthy_b norm this c); split; congruence.
Qed.

Lemma unhealthy_b_same (a b : RovioHealthMonitor) (c : cycle) :
  same_parameters a b -> unhealthy_b norm a c = unhealthy_b norm b c.
Proof.
  intros (_ & Hs & _ & _ & _ & Ha & Hv).
  unfold unhealthy_b. rewrite Hs, Ha, Hv. reflexivity.
Qed.

Lemma counter_machine_cons (mx : Z) (n : nat) (u : bool) (us : list bool) :
  counter_machine mx n (u :: us) =
  (fst (counter_machine_step mx n u)
     :: fst (counter_machine mx (snd (counter_machine_step mx n u)) us),
   snd (counter_machine mx (snd (counter_machine_step mx n u)) us)).
Proof.
  simpl. destruct (counter_machine_step mx n u) as [r n']. cbn [fst snd].
  destruct (counter_machine mx n' us). reflexivity.
Qed.

Lemma counter_machine_app (mx : Z) (us1 us2 : list bool) (n : nat) :
  counter_machine mx n (us1 ++ us2) =
  (fst (counter_machine mx n us1)
     ++ fst (counter_machine mx (snd (counter_machine mx n us1)) us2),
   snd (counter_machine mx (snd (counter_machine mx n us1)) us2)).
Proof.
  revert n. induction us1 as [|u us1 IH]; intros n.
  - simpl. destruct (counter_machine mx n us2). reflexivity.
  - rewrite <- app_comm_cons, !counter_machine_cons, IH. reflexivity.
Qed.

Lemma counter_machine_bound (mx : Z) (us : list bool) (n : nat) :
  (snd (counter_machine mx n us) <= n + length us)%nat.
Proof.
  revert n. induction us as [|u us IH]; intros n.
  - simpl. lia.
  - rewrite counter_machine_cons. cbn [snd length].
    specialize (IH (snd (counter_machine_step mx n u))).
    destruct u; cbn [counter_machine_step snd] in *; lia.
Qed.

(** The code against the machine, for monitors with the parameters of
    [cfg]. *)
Lemma run_counter_machine (cfg : RovioHealthMonitor) (cs : list cycle) :
  forall (this : RovioHealthMonitor) (n : nat),
    same_parameters cfg this ->
    num_subsequent_unhealthy_updates_ this = Z.of_nat n ->
    Z.of_nat n + Z.of_nat (length cs) <= Int32.INT_MAX ->
    fst (run this cs) =
    fst (counter_machine (max_subsequent_unhealthy_updates_ cfg) n
                         (map (unhealthy_b norm cfg) cs)) /\
    num_subsequent_unhealthy_updates_ (snd (run this cs)) =
    Z.of_nat (snd (counter_machine (max_subsequent_unhealthy_updates_ cfg) n
                                   (map (unhealthy_b norm cfg) cs))).
Proof.
  induction cs as [|c cs IH]; intros this n Hp Hn Hb.
  - simpl. split; [reflexivity|exact Hn].
  - cbn [map]. rewrite run_cons, counter_machine_cons. cbn [fst snd].
    change (length (c :: cs)) with (S (length cs)) in Hb.
    assert (Hmax : max_subsequent_unhealthy_updates_ cfg =
                   max_subsequent_unhealthy_updates_ this) by apply Hp.
    assert (Hp' : same_parameters cfg (monitor (call this c))).
    { eapply same_parameters_trans; [exact Hp|apply call_same_parameters]. }
    rewrite (unhealthy_b_same cfg this c Hp).
    destruct (unhealthy_b norm this c) eqn:Hu.
    + apply unhealthy_b_true in Hu.
      destruct (call_unhealthy norm this c Hu) as (Hm & Hr & _). cbv zeta in Hm, Hr.
      rewrite Int32Facts.incr_small in Hm, Hr
        by (rewrite Hn; unfold Int32.INT_MIN, Int32.INT_MAX in *; lia).
      cbn [counter_machine_step fst snd].
      destruct (IH (monitor (call this c)) (S n) Hp') as [IH1 IH2].
      * rewrite Hm. cbn [num_subsequent_unhealthy_updates_
                           set_num_subsequent_unhealthy_updates]. lia.
      * lia.
      * rewrite IH1, IH2, Hr, Hn, Hmax.
        replace (Z.of_nat n + 1) with (Z.of_nat (S n)) by lia.
        split; reflexivity.
    + apply unhealthy_b_false in Hu.
      destruct (call_healthy norm this c Hu) as (Hr & _ & Hz & _).
      cbn [counter_machine_step fst snd].
      destruct (IH (monitor (call this c)) O Hp') as [IH1 IH2].
      * exact Hz.
      * cbn [Z.of_nat]. lia.
      * rewrite IH1, IH2, Hr. split; reflexivity.
Qed.

(** X1: as long as the counter stays within [int], the values returned
    along a run and the counter it ends with are those of the counter
    machine fed with the healthy/unhealthy verdicts of the cycles: the
    counter is the length of the current streak of unhealthy cycles,
    never negative and never more than the start value plus the number
    of calls. *)
Theorem X1_run_is_counter_machine
        (this : RovioHealthMonitor) (n : nat) (cs : list cycle) :
  num_subsequent_unhealthy_updates_ this = Z.of_nat n ->
  Z.of_nat n + Z.of_nat (length cs) <= Int32.INT_MAX ->
  let machine := counter_machine (max_subsequent_unhealthy_updates_ this) n
                                 (map (unhealthy_b norm this) cs) in
  fst (run this cs) = fst machine /\
  num_subsequent_unhealthy_updates_ (snd (run this cs)) = Z.of_nat (snd machine) /\
  0 <= num_subsequent_unhealthy_updates_ (snd (run this cs))
    <= Z.of_nat n + Z.of_nat (length cs).
Proof.
  intros Hn Hb machine.
  destruct (run_counter_machine this cs this n (same_parameters_refl this) Hn Hb)
    as [H1 H2].
  split; [exact H1|]. split; [exact H2|].
  rewrite H2.
  pose proof (counter_machine_bound (max_subsequent_unhealthy_updates_ this)
                                    (map (unhealthy_b norm this) cs) n) as Hle.
  rewrite length_map in Hle. lia.
Qed.

Lemma counter_machine_snoc (mx : Z) (n : nat) (us : list bool) (u : bool) :
  snd (counter_machine mx n (us ++ [u])) =
  if u then S (snd (counter_machine mx n us)) else O.
Proof.
  rewrite counter_machine_app. cbn [snd]. rewrite counter_machine_cons. cbn [snd].
  destruct u; reflexivity.
Qed.

(** The streak is longer than [k] exactly when the last [k + 1] verdicts
    are all "unhealthy". *)
Lemma streak_window {A} (f : A -> bool) (mx : Z) (l : list A) :
  forall k : nat,
    (k < snd (counter_machine mx O (map f l)))%nat <->
    exists pre tail,
      l = pre ++ tail /\ length tail = S k /\ Forall (fun x => f x = true) tail.
Proof.
  induction l as [|x l IH] using rev_ind; intros k.
  - simpl. split; [lia|].
    intros (pre & tail & Heq & Hlen & _).
    symmetry in Heq. apply app_eq_nil in Heq. destruct Heq as [_ ->]. discriminate.
  - rewrite map_app. cbn [map]. rewrite counter_machine_snoc. split.
    + intros Hk. destruct (f x) eqn:Hx; [|lia].
      destruct k as [|k].
      * exists l, [x]. repeat split. constructor; [exact Hx|constructor].
      * apply PeanoNat.lt_S_n in Hk. apply IH in Hk.
        destruct Hk as (pre & tail & -> & Hlen & Hall).
        exists pre, (tail ++ [x]). split; [symmetry; apply app_assoc|]. split.
        -- rewrite length_app, Hlen. simpl. lia.
        -- apply Forall_app. split; [exact Hall|]. constructor; [exact Hx|constructor].
    + intros (pre & tail & Heq & Hlen & Hall).
      assert (Hne : tail <> []) by (intros ->; discriminate).
      destruct (exists_last Hne) as (tail' & y & ->).
      rewrite app_assoc in Heq. apply app_inj_tail in Heq. destruct Heq as [-> <-].
      apply Forall_app in Hall. destruct Hall as [Hall Hx].
      inversion Hx as [|? ? Hfx _]; subst. rewrite Hfx.
      rewrite length_app, Nat.add_1_r in Hlen. injection Hlen as Hlen.
      destruct k as [|k]; [lia|].
      apply -> PeanoNat.Nat.succ_lt_mono. apply IH.
      exists pre, tail'. repeat split; assumption.
Qed.

(** X2: on a monitor that starts with the counter at zero and has the
    limit [k >= 0], a call returns [true] exactly when the cycle of the
    call and the [k] cycles before it are all unhealthy (for runs of
    fewer than [INT_MAX] calls). *)
Theorem X2_reset_window
        (this : RovioHealthMonitor) (k : nat) (cs : list cycle) (c : cycle) :
  num_subsequent_unhealthy_updates_ this = 0 ->
  max_subsequent_unhealthy_updates_ this = Z.of_nat k ->
  Z.of_nat (length cs) < Int32.INT_MAX ->
  (returned (call (snd (run this cs)) c) = true <->
   exists pre tail,
     cs ++ [c] = pre ++ tail /\ length tail = S k /\
     Forall (classified_unhealthy this) tail).
Proof.
  intros Hnum Hmax Hlen.
  destruct (run_counter_machine this cs this O (same_parameters_refl this) Hnum)
    as [_ Hs]; [cbn [Z.of_nat]; lia|].
  pose proof (counter_machine_bound (max_subsequent_unhealthy_updates_ this)
                                    (map (unhealthy_b norm this) cs) O) as Hle.
  rewrite length_map in Hle.
  set (s := snd (counter_machine (max_subsequent_unhealthy_updates_ this) O
                                 (map (unhealthy_b norm this) cs))) in *.
  set (this1 := snd (run this cs)) in *.
  assert (Hp : same_parameters this this1) by apply run_same_parameters.
  assert (Hwin : (k < (if unhealthy_b norm this c then S s else O))%nat <->
                 exists pre tail,
                   cs ++ [c] = pre ++ tail /\ length tail = S k /\
                   Forall (classified_unhealthy this) tail).
  { unfold s. rewrite <- counter_machine_snoc.
    change (map (unhealthy_b norm this) cs ++ [unhealthy_b norm this c])
      with (map (unhealthy_b norm this) cs ++ map (unhealthy_b norm this) [c]).
    rewrite <- map_app, streak_window.
    split; intros (pre & tail & H1 & H2 & H3); exists pre, tail;
      (split; [exact H1|split; [exact H2|]]);
      (eapply Forall_impl; [|exact H3]); intros c'; apply unhealthy_b_true. }
  rewrite <- Hwin. rewrite (unhealthy_b_same this this1 c Hp).
  destruct (unhealthy_b norm this1 c) eqn:Hu.
  - apply unhealthy_b_true in Hu.
    destruct (call_unhealthy norm this1 c Hu) as (_ & Hr & _). cbv zeta in Hr.
    rewrite Hr, Hs, Int32Facts.incr_small
      by (unfold Int32.INT_MIN, Int32.INT_MAX in *; lia).
    destruct Hp as (_ & _ & <- & _). rewrite Hmax.
    rewrite Z.gtb_ltb, Z.ltb_lt. lia.
  - apply unhealthy_b_false in Hu.
    destruct (call_healthy norm this1 c Hu) as (Hr & _).
    rewrite Hr. split; [discriminate|lia].
Qed.

(** X3: with a negative limit every unhealthy cycle returns [true], the
    first one included (counter not negative and below [INT_MAX]). *)
Theorem X3_negative_limit (this : RovioHealthMonitor) (c : cycle) :
  max_subsequent_unhealthy_updates_ this < 0 ->
  0 <= num_subsequent_unhealthy_updates_ this < Int32.INT_MAX ->
  classified_unhealthy this c ->
  returned (call this c) = true.
Proof.
  intros Hmax Hnum Hc.
  destruct (call_unhealthy norm this c Hc) as (_ & Hr & _). cbv zeta in Hr.
  rewrite Hr, Int32Facts.incr_small
    by (unfold Int32.INT_MIN, Int32.INT_MAX in *; lia).
  rewrite Z.gtb_ltb. apply Z.ltb_lt. lia.
Qed.

End ResetPolicy.

(** ** The retained pose *)

Section RetainedPose.

Variable norm : Vector3d -> double.

Local Abbreviation call := (call norm).
Local Abbreviation run := (run norm).
Local Abbreviation classified_unhealthy := (classified_unhealthy norm).

(** The pose retained after a call, by cases. *)
Lemma call_pose_cases (this : RovioHealthMonitor) (c : cycle) :
  (last_safe_pose_ (monitor (call this c)) = last_safe_pose_ this) \/
  (~ classified_unhealthy this c /\ qualifies this (median_of c) /\
   last_safe_pose_ (monitor (call this c)) = snapshot_pose c).
Proof.
  destruct (classified_unhealthy_dec norm this c) as [Hu|Hh].
  - left. destruct (call_unhealthy norm this c Hu) as (-> & _). reflexivity.
  - destruct (call_healthy norm this c Hh) as (_ & _ & _ & Hq & Hn).
    destruct (qualifies_dec this (median_of c)) as [Q|Q].
    + right. split; [exact Hh|]. split; [exact Q|]. rewrite (Hq Q). reflexivity.
    + left. rewrite (Hn Q). reflexivity.
Qed.

(** X4: whatever the cycles, the pose retained after a run is the pose
    retained before it or the snapshot of one of its cycles, and that
    cycle was healthy with a median strictly below
    [healthy_feature_pixel_cov_area_]. *)
Theorem X4_retained_pose_provenance (this : RovioHealthMonitor) (cs : list cycle) :
  last_safe_pose_ (snd (run this cs)) = last_safe_pose_ this \/
  exists c,
    In c cs /\
    ~ classified_unhealthy this c /\
    fd_ltb (median_of c) (healthy_feature_pixel_cov_area_ this) = true /\
    last_safe_pose_ (snd (run this cs)) = snapshot_pose c.
Proof.
  revert this. induction cs as [|c cs IH]; intros this.
  - left. reflexivity.
  - rewrite run_cons. cbn [snd].
    pose proof (call_same_parameters norm this c) as Hp.
    destruct (IH (monitor (call this c))) as [Heq|(c' & Hin & Hh & Hlow & Heq)].
    + rewrite Heq.
      destruct (call_pose_cases this c) as [H|(Hh & [Hlow _] & H)].
      * left. exact H.
      * right. exists c. split; [left; reflexivity|]. repeat split; assumption.
    + right. exists c'. split; [right; exact Hin|]. split; [|split; [|exact Heq]].
      * intros H. apply Hh. revert H. apply classified_unhealthy_same, Hp.
      * destruct Hp as (_ & _ & _ & -> & _). exact Hlow.
Qed.

Lemma call_same_thresholds_and_pose (a b : RovioHealthMonitor) (c : cycle) :
  same_thresholds_and_pose a b ->
  same_thresholds_and_pose (monitor (call a c)) (monitor (call b c)).
Proof.
  intros (Hs & Hh & Hi & Ha & Hv & Hp).
  unfold same_thresholds_and_pose, call, shouldResetEstimator.
  rewrite Hs, Hh, Hi, Ha, Hv, Hp.
  destruct (fd_gtb _ (velocity_to_consider_static_ b) && _); cbn [monitor].
  - destruct (_ >? _); destruct (_ >? _); cbn; repeat split; assumption.
  - destruct (fd_ltb _ (healthy_feature_pixel_cov_area_ b));
      [destruct (fd_ltb _ (healthy_feature_pixel_cov_area_increment_ b))|];
      cbn; repeat split; assumption.
Qed.

(** X5: the retained pose does not depend on the reset policy: two
    monitors with the same thresholds and the same retained pose, whatever
    their counters and limits on the counter, retain the same pose after
    the same cycles. *)
Theorem X5_pose_independent_of_counter
        (a b : RovioHealthMonitor) (cs : list cycle) :
  same_thresholds_and_pose a b ->
  last_safe_pose_ (snd (run a cs)) = last_safe_pose_ (snd (run b cs)) /\
  failsafe_WrWB_of (snd (run a cs)) = failsafe_WrWB_of (snd (run b cs)) /\
  failsafe_qBW_of (snd (run a cs)) = failsafe_qBW_of (snd (run b cs)).
Proof.
  intros H.
  assert (Hpose : last_safe_pose_ (snd (run a cs)) = last_safe_pose_ (snd (run b cs))).
  { revert a b H. induction cs as [|c cs IH]; intros a b H.
    - apply H.
    - rewrite !run_cons. cbn [snd]. apply IH, call_same_thresholds_and_pose, H. }
  unfold failsafe_WrWB_of, failsafe_qBW_of. rewrite Hpose. repeat split.
Qed.

End RetainedPose.

(** ** Values that are not numbers, and what is printed *)

Section EdgeValues.

Variable norm : Vector3d -> double.

Local Abbreviation shouldResetEstimator := (shouldResetEstimator norm).
Local Abbreviation call := (call norm).
Local Abbreviation run := (run norm).
Local Abbreviation classified_unhealthy := (classified_unhealthy norm).

Lemma gtb_nan_l (x : spec_float) : gtb S754_nan x = false.
Proof. unfold gtb, SFltb. destruct x; reflexivity. Qed.

Lemma gtb_nan_r (x : spec_float) : gtb x S754_nan = false.
Proof. unfold gtb, SFltb. destruct x; reflexivity. Qed.

Lemma ltb_nan_l (x : spec_float) : ltb S754_nan x = false.
Proof. unfold ltb, SFltb. destruct x; reflexivity. Qed.

Lemma is_nan_eq (x : spec_float) : is_nan x = true -> x = S754_nan.
Proof. destruct x; simpl; congruence. Qed.

(** X6: a velocity norm that is NaN, or a static limit that is NaN,
    makes every comparison of line 96 fail: the cycle counts as healthy,
    the call returns [false], prints nothing and puts the counter to
    zero, whatever the samples and the counter were. *)
Theorem X6_nan_speed_is_healthy
        (this : RovioHealthMonitor) (samples : list float) (o : StandardOutput) :
  is_nan (norm (BvB o)) = true \/ is_nan (velocity_to_consider_static_ this) = true ->
  ~ classified_unhealthy this (samples, o) /\
  returned (shouldResetEstimator this samples o) = false /\
  printed (shouldResetEstimator this samples o) = [] /\
  num_subsequent_unhealthy_updates_ (monitor (shouldResetEstimator this samples o)) = 0.
Proof.
  intros Hnan.
  assert (Hh : ~ classified_unhealthy this (samples, o)).
  { intros [Hs _]. unfold fd_gtb, speed in Hs. cbn [snd] in Hs.
    destruct Hnan as [H|H]; apply is_nan_eq in H; rewrite H in Hs.
    - cbn [double_to_float float_to_double] in Hs. rewrite gtb_nan_l in Hs.
      discriminate.
    - rewrite gtb_nan_r in Hs. discriminate. }
  destruct (call_healthy norm this (samples, o) Hh) as (Hr & Hp & Hz & _).
  repeat split; assumption.
Qed.

(** X7: a median that is NaN never fires the feature test and never
    latches a pose: the cycle is unhealthy exactly when the speed is above
    both velocity limits, and the retained pose is the same after the
    call. *)
Theorem X7_nan_median
        (this : RovioHealthMonitor) (samples : list float) (o : StandardOutput) :
  is_nan (feature_pixel_cov_area_median_of samples) = true ->
  (classified_unhealthy this (samples, o) <->
   fd_gtb (speed norm o) (velocity_to_consider_static_ this) = true /\
   fd_gtb (speed norm o) (unhealthy_velocity_ this) = true) /\
  last_safe_pose_ (monitor (shouldResetEstimator this samples o)) = last_safe_pose_ this.
Proof.
  intros Hnan. apply is_nan_eq in Hnan.
  assert (Hiff : classified_unhealthy this (samples, o) <->
                 fd_gtb (speed norm o) (velocity_to_consider_static_ this) = true /\
                 fd_gtb (speed norm o) (unhealthy_velocity_ this) = true).
  { split.
    - intros [Hs [Hv|Hm]]; [split; assumption|].
      unfold median_of, fd_gtb in Hm. cbn [fst] in Hm. rewrite Hnan in Hm.
      cbn [float_to_double] in Hm. rewrite gtb_nan_l in Hm. discriminate.
    - intros [Hs Hv]. split; [exact Hs|left; exact Hv]. }
  split; [exact Hiff|].
  destruct (call_pose_cases norm this (samples, o)) as [H|(_ & [Hlow _] & _)].
  - exact H.
  - unfold median_of, fd_ltb in Hlow. cbn [fst] in Hlow. rewrite Hnan in Hlow.
    cbn [float_to_double] in Hlow. rewrite ltb_nan_l in Hlow. discriminate.
Qed.

(** X8: what a call prints follows from what it does: nothing on a
    healthy cycle; on an unhealthy one the fault counter with the counter
    after the increment and the limit, followed, exactly when the call
    returns [true], by the reset line with the speed, the median and their
    limits. *)
Theorem X8_printed_lines
        (this : RovioHealthMonitor) (samples : list float) (o : StandardOutput) :
  let r := shouldResetEstimator this samples o in
  let counter_line :=
    FaultCounter (num_subsequent_unhealthy_updates_ (monitor r))
                 (max_subsequent_unhealthy_updates_ this) in
  let reset_line :=
    WillReset (speed norm o) (unhealthy_velocity_ this)
              (feature_pixel_cov_area_median_of samples)
              (unhealthy_feature_pixel_cov_area_ this) in
  printed r =
  (if returned r then [counter_line; reset_line]
   else if unhealthy_b norm this (samples, o) then [counter_line]
        else []) /\
  (returned r = true -> unhealthy_b norm this (samples, o) = true).
Proof.
  intros r counter_line reset_line.
  unfold counter_line, reset_line, r, unhealthy_b, speed, median_of,
    shouldResetEstimator.
  cbn [fst snd].
  destruct (fd_gtb _ (velocity_to_consider_static_ this) && _); cbn zeta.
  - destruct (_ >? _) eqn:E; cbn; split; reflexivity.
  - cbn. split; [reflexivity|discriminate].
Qed.

(** X9: the parameters are read once: after any run of a monitor built
    by the constructor, each of them is still the value set on the
    parameter server, or its default where the key is not set; and no run
    of any monitor changes a parameter. *)
Theorem X9_parameters_never_change (nh : NodeHandle) (cs : list cycle) :
  let this := snd (run (RovioHealthMonitor_ctor nh) cs) in
  (enabled this = param (health_monitor_enabled nh) false /\
   velocity_to_consider_static_ this =
     param (velocity_to_consider_static nh) (double_lit 1 10) /\
   max_subsequent_unhealthy_updates_ this =
     param (max_subsequent_unhealthy_updates nh) 2 /\
   healthy_feature_pixel_cov_area_ this =
     param (healthy_feature_pixel_cov_area nh) (double_of_Z 1) /\
   healthy_feature_pixel_cov_area_increment_ this =
     param (healthy_feature_pixel_cov_area_increment nh) (double_lit 3 10) /\
   unhealthy_feature_pixel_cov_area_ this =
     param (unhealthy_feature_pixel_cov_area nh) (double_of_Z 5) /\
   unhealthy_velocity_ this = param (unhealthy_velocity nh) (double_of_Z 6)) /\
  (forall that, same_parameters that (snd (run that cs))).
Proof.
  intros this.
  assert (H : forall that, same_parameters that (snd (run that cs))).
  { intros that. apply run_same_parameters. }
  split; [|exact H].
  destruct (H (RovioHealthMonitor_ctor nh)) as (H1 & H2 & H3 & H4 & H5 & H6 & H7).
  unfold this, enabled.
  rewrite <- H1, <- H2, <- H3, <- H4, <- H5, <- H6, <- H7.
  repeat split.
Qed.

End EdgeValues.

(** ** The median as a function of the samples *)

Section MedianFacts.

(** [t < m <= x] gives [t < x]. *)
Lemma ltb_leb_trans (t m x : spec_float) :
  is_nan x = false -> ltb t m = true -> ltb x m = false -> ltb t x = true.
Proof.
  intros Hx Htm Hxm.
  destruct (ltb t x) eqn:Htx; [reflexivity|exfalso].
  revert Htm Hxm Htx. unfold ltb, SFltb.
  destruct t as [st|st| |st mt et], m as [sm|sm| |sm mm em],
           x as [sx|sx| |sx mx ex]; simpl in *;
    try congruence;
    try (destruct st; simpl; congruence);
    try (destruct sm; simpl; congruence);
    try (destruct sx; simpl; congruence);
    try (destruct st, sm; simpl; congruence);
    try (destruct st, sx; simpl; congruence);
    try (destruct sm, sx; simpl; congruence);
    try (destruct st, sm, sx; simpl; congruence).
  destruct st, sm, sx; simpl; try congruence;
    destruct (Z.compare_spec et em), (Z.compare_spec ex em),
             (Z.compare_spec et ex); try congruence; try lia;
    destruct (compare_cont_spec mt mm), (compare_cont_spec mx mm),
             (compare_cont_spec mt mx); simpl; try congruence; try lia.
Qed.

Lemma order_statistic_perm (k : nat) (v v' : list float) (m : float) :
  Permutation v v' -> order_statistic k v m -> order_statistic k v' m.
Proof.
  intros Hp (Hin & Hb & Ha). unfold order_statistic, count_below, count_above in *.
  rewrite <- !(filter_length_perm _ _ _ Hp), <- (Permutation_length Hp).
  split; [eapply Permutation_in; eassumption|]. split; assumption.
Qed.

Lemma median_rank (v : list float) :
  v <> [] ->
  order_statistic (length v / 2) v (feature_pixel_cov_area_median_of v).
Proof.
  intros Hne.
  assert (Hk : (length v / 2 < length v)%nat).
  { apply Nat.div_lt; [destruct v; [congruence|simpl; lia]|lia]. }
  replace (feature_pixel_cov_area_median_of v)
    with (nth (length v / 2) (nth_element (length v / 2) v) fzero)
    by (destruct v; [congruence|reflexivity]).
  apply nth_element_post_rank, nth_element_spec, Hk.
Qed.

(** X10: the median does not depend on the order in which the samples
    are handed over: for samples without NaN, any rearrangement gives the
    same number. *)
Theorem X10_median_of_permutation (v v' : list float) :
  no_nan v -> Permutation v v' ->
  equiv (feature_pixel_cov_area_median_of v) (feature_pixel_cov_area_median_of v').
Proof.
  intros Hnan Hp.
  destruct v as [|x v].
  - apply Permutation_nil in Hp. subst v'. reflexivity.
  - assert (Hne : x :: v <> []) by discriminate.
    assert (Hne' : v' <> []).
    { intros ->. apply Permutation_sym, Permutation_nil in Hp. discriminate. }
    eapply order_statistic_unique; [exact Hnan|apply median_rank, Hne|].
    rewrite (Permutation_length Hp).
    eapply order_statistic_perm; [apply Permutation_sym, Hp|].
    apply median_rank, Hne'.
Qed.

(** X11: the median is a majority vote: for samples without NaN it is
    strictly above a value [t] exactly when at least half of the samples,
    rounded up, are strictly above [t]. *)
Theorem X11_median_exceeds_iff_majority (t : float) (v : list float) :
  v <> [] -> no_nan v ->
  (ltb t (feature_pixel_cov_area_median_of v) = true <->
   (length v - length v / 2 <= count_exceeding t v)%nat).
Proof.
  intros Hne Hnan.
  destruct (median_rank v Hne) as (Hin & Hbelow & Habove).
  set (m := feature_pixel_cov_area_median_of v) in *.
  unfold count_below, count_above, count_exceeding in *.
  split.
  - intros Htm.
    pose proof (filter_length (fun x => ltb x m) v) as Hsplit.
    assert (Hmono : (length (filter (fun x => negb (ltb x m)) v)
                     <= length (filter (fun x => ltb t x) v))%nat).
    { apply filter_length_mono.
      eapply Forall_impl; [|exact Hnan].
      intros x Hx Hneg. apply negb_true_iff in Hneg.
      eapply ltb_leb_trans; eassumption. }
    lia.
  - intros Hmaj.
    destruct (ltb t m) eqn:Htm; [reflexivity|exfalso].
    assert (Hm : is_nan m = false).
    { unfold no_nan in Hnan. rewrite Forall_forall in Hnan. apply Hnan, Hin. }
    assert (Hmono : (length (filter (fun x => ltb t x) v)
                     <= length (filter (fun x => ltb m x) v))%nat).
    { apply filter_length_mono. apply Forall_forall.
      intros x _ Htx. eapply leb_ltb_trans; eassumption. }
    lia.
Qed.

End MedianFacts.

(** ** Latching a pose *)

Section Latching.

Variable norm : Vector3d -> double.

Local Abbreviation call := (call norm).
Local Abbreviation run := (run norm).
Local Abbreviation classified_unhealthy := (classified_unhealthy norm).

(** Rounding keeps the sign: the result is a zero, a finite value or an
    infinity of the sign given, or NaN. *)
Lemma binary_round_shape (prec emax : Z) (s : bool) (m : positive) (e : Z) :
  binary_round prec emax s m e = S754_zero s \/
  binary_round prec emax s m e = S754_infinity s \/
  binary_round prec emax s m e = S754_nan \/
  exists m' e', binary_round prec emax s m e = S754_finite s m' e'.
Proof.
  unfold binary_round.
  destruct (shl_align m e _) as [mz ez].
  unfold binary_round_aux.
  destruct (shr_fexp prec emax (Z.pos mz) ez loc_Exact) as [mrs' e'].
  destruct (shr_fexp prec emax _ e' loc_Exact) as [mrs'' e''].
  destruct (shr_m mrs'') as [|p|p].
  - left. reflexivity.
  - destruct (e'' <=? emax - prec).
    + right. right. right. eexists. eexists. reflexivity.
    + right. left. reflexivity.
  - right. right. left. reflexivity.
Qed.

(** A limit that some absolute value stays below is positive. *)
Lemma ltb_fabs_positive (y : float) (limit : double) :
  fd_ltb (fabs y) limit = true -> ltb (S754_zero false) limit = true.
Proof.
  unfold fd_ltb, fabs, float_to_double.
  destruct y as [sy|sy| |sy my ey]; cbn [SFabs].
  - exact (fun H => H).
  - unfold ltb, SFltb. destruct limit as [|[|]| |]; simpl; congruence.
  - rewrite ltb_nan_l. discriminate.
  - destruct (binary_round_shape prec64 emax64 false my ey)
      as [->|[->|[->|(m' & e' & ->)]]];
      unfold ltb, SFltb; destruct limit as [|[|]| |[|] ? ?]; simpl; congruence.
Qed.

(** The difference of a number with itself is [+0]. *)
Lemma fsub_self (m : float) : is_finite m = true -> fsub m m = S754_zero false.
Proof.
  destruct m as [[|]| | |s m e]; simpl; try congruence; intros _.
  unfold fsub, SFsub.
  match goal with
  | |- binary_normalize _ _ (_ ?x ?y) _ _ = _ =>
      change y with x; generalize x; intros z
  end.
  change (binary_normalize prec32 emax32 (z - z) (Z.min e e) false = S754_zero false).
  rewrite Z.sub_diag. reflexivity.
Qed.

(** A median that passes the retention test is a number. *)
Lemma qualifies_is_finite (this : RovioHealthMonitor) (m : float) :
  qualifies this m -> is_finite m = true.
Proof.
  intros [Hlow Hinc].
  destruct m as [s|[|]| |s m e]; try reflexivity; exfalso.
  - unfold fd_ltb, fabs, fsub, ltb, SFltb in Hinc.
    destruct (feature_pixel_cov_area_median (last_safe_pose_ this)) as [|[|]| |];
      simpl in Hinc;
      destruct (healthy_feature_pixel_cov_area_increment_ this) as [|[|]| |];
      simpl in Hinc; congruence.
  - unfold fd_ltb, float_to_double, ltb, SFltb in Hlow.
    destruct (healthy_feature_pixel_cov_area_ this) as [|[|]| |]; simpl in Hlow;
      congruence.
  - unfold fd_ltb in Hlow. cbn [float_to_double] in Hlow.
    rewrite ltb_nan_l in Hlow. discriminate.
Qed.

(** X12: a healthy cycle that latched its pose latches it again: feeding
    the same cycle once more returns [false] and leaves the monitor
    exactly as the first call left it. *)
Theorem X12_latching_is_idempotent (this : RovioHealthMonitor) (c : cycle) :
  ~ classified_unhealthy this c ->
  qualifies this (median_of c) ->
  let this' := monitor (call this c) in
  last_safe_pose_ this' = snapshot_pose c /\
  returned (call this' c) = false /\
  monitor (call this' c) = this'.
Proof.
  intros Hh Q this'.
  destruct (call_healthy norm this c Hh) as (_ & _ & _ & Hq & _).
  assert (Hthis' : this' = set_num_subsequent_unhealthy_updates
                             0 (set_last_safe_pose (snapshot_pose c) this))
    by (apply Hq, Q).
  assert (Hh' : ~ classified_unhealthy this' c).
  { intros H. apply Hh. revert H.
    apply classified_unhealthy_same, same_parameters_sym, call_same_parameters. }
  assert (Q' : qualifies this' (median_of c)).
  { destruct Q as [Hlow Hinc]. rewrite Hthis'. split; [exact Hlow|].
    cbn [last_safe_pose_ set_num_subsequent_unhealthy_updates set_last_safe_pose
         snapshot_pose feature_pixel_cov_area_median
         healthy_feature_pixel_cov_area_increment_].
    rewrite fsub_self by (eapply qualifies_is_finite; split; eassumption).
    apply ltb_fabs_positive in Hinc. exact Hinc. }
  destruct (call_healthy norm this' c Hh') as (Hr & _ & _ & Hq' & _).
  split; [rewrite Hthis'; reflexivity|]. split; [exact Hr|].
  rewrite (Hq' Q'), Hthis'. reflexivity.
Qed.

(** X13: without samples the median is zero, the best value there is: on
    a monitor whose retained median is zero (a new one, for instance) and
    whose healthy limit and increment are positive, a healthy cycle
    without samples latches the pose of its output. *)
Theorem X13_no_samples_latches (this : RovioHealthMonitor) (o : StandardOutput) :
  ~ classified_unhealthy this ([], o) ->
  (exists s, feature_pixel_cov_area_median (last_safe_pose_ this) = S754_zero s) ->
  ltb (S754_zero false) (healthy_feature_pixel_cov_area_ this) = true ->
  ltb (S754_zero false) (healthy_feature_pixel_cov_area_increment_ this) = true ->
  last_safe_pose_ (monitor (call this ([], o))) =
  {| failsafe_WrWB := WrWB o;
     failsafe_qBW := qBW o;
     feature_pixel_cov_area_median := fzero |}.
Proof.
  intros Hh [s Hs] Hlow Hinc.
  destruct (call_healthy norm this ([], o) Hh) as (_ & _ & _ & Hq & _).
  rewrite Hq; [reflexivity|].
  split.
  - exact Hlow.
  - rewrite Hs. destruct s; exact Hinc.
Qed.

End Latching.

(** ** What the decision reads, and the expected order of the limits *)

Section Decision.

Variable norm : Vector3d -> double.

Local Abbreviation call := (call norm).
Local Abbreviation run := (run norm).
Local Abbreviation classified_unhealthy := (classified_unhealthy norm).

(** X14: the retained median stays a number (zero or finite, never NaN
    or infinite): a call keeps that, whatever samples it is given, so it
    holds after every run of a monitor built by the constructor. *)
Theorem X14_retained_median_is_finite :
  (forall this cs,
      is_finite (feature_pixel_cov_area_median (last_safe_pose_ this)) = true ->
      is_finite (feature_pixel_cov_area_median (last_safe_pose_ (snd (run this cs))))
      = true) /\
  (forall nh cs,
      is_finite (feature_pixel_cov_area_median
                   (last_safe_pose_ (snd (run (RovioHealthMonitor_ctor nh) cs))))
      = true).
Proof.
  assert (H : forall cs this,
             is_finite (feature_pixel_cov_area_median (last_safe_pose_ this)) = true ->
             is_finite (feature_pixel_cov_area_median
                          (last_safe_pose_ (snd (run this cs)))) = true).
  { induction cs as [|c cs IH]; intros this Hfin; [exact Hfin|].
    rewrite run_cons. cbn [snd]. apply IH.
    destruct (call_pose_cases norm this c) as [->|(_ & Q & ->)]; [exact Hfin|].
    cbn [snapshot_pose feature_pixel_cov_area_median].
    eapply qualifies_is_finite, Q. }
  split.
  - intros this cs. apply H.
  - intros nh cs. apply H. reflexivity.
Qed.

Lemma call_same_decision (a b : RovioHealthMonitor) (c c' : cycle) :
  same_parameters a b ->
  num_subsequent_unhealthy_updates_ a = num_subsequent_unhealthy_updates_ b ->
  same_samples_and_velocity c c' ->
  returned (call a c) = returned (call b c') /\
  printed (call a c) = printed (call b c') /\
  same_parameters (monitor (call a c)) (monitor (call b c')) /\
  num_subsequent_unhealthy_updates_ (monitor (call a c)) =
  num_subsequent_unhealthy_updates_ (monitor (call b c')).
Proof.
  intros Hp Hn [Hsam Hvel].
  destruct a as [ea sa ma ha ia aa va pa na], b as [eb sb mb hb ib ab vb pb nb].
  unfold same_parameters in *. cbn in Hp, Hn.
  destruct Hp as (He & Hs & Hm & Hh & Hi & Ha & Hv). subst.
  unfold call, shouldResetEstimator. rewrite Hsam, Hvel. cbn.
  destruct (fd_gtb _ sb && _); cbn.
  - destruct (_ >? _); cbn; repeat split.
  - destruct (fd_ltb _ hb); cbn; [|repeat split].
    destruct (fd_ltb _ ib); destruct (fd_ltb _ ib); cbn; repeat split.
Qed.

(** X15: the decision reads the samples and the velocity only: two
    monitors with the same parameters and the same counter, fed cycles
    that agree in samples and velocity, return the same values, print the
    same and end with the same counter, whatever the positions and
    orientations handed over and whatever poses the monitors retain. *)
Theorem X15_decision_reads_samples_and_velocity
        (a b : RovioHealthMonitor) (cs cs' : list cycle) :
  same_parameters a b ->
  num_subsequent_unhealthy_updates_ a = num_subsequent_unhealthy_updates_ b ->
  Forall2 same_samples_and_velocity cs cs' ->
  fst (run a cs) = fst (run b cs') /\
  num_subsequent_unhealthy_updates_ (snd (run a cs)) =
  num_subsequent_unhealthy_updates_ (snd (run b cs')).
Proof.
  intros Hp Hn Hall. revert a b Hp Hn.
  induction Hall as [|c c' cs cs' Hc _ IH]; intros a b Hp Hn.
  - split; [reflexivity|exact Hn].
  - rewrite !run_cons. cbn [fst snd].
    destruct (call_same_decision a b c c' Hp Hn Hc) as (Hr & _ & Hp' & Hn').
    destruct (IH _ _ Hp' Hn') as [H1 H2].
    rewrite Hr, H1. split; [reflexivity|exact H2].
Qed.

(** X16: with the limits in the expected order,
    [healthy_feature_pixel_cov_area_ <= unhealthy_feature_pixel_cov_area_],
    a median strictly above the unhealthy limit is never latched, also
    not on a cycle that counts as healthy because the platform is at
    rest. *)
Theorem X16_bad_median_is_never_latched (this : RovioHealthMonitor) (c : cycle) :
  leb (healthy_feature_pixel_cov_area_ this)
      (unhealthy_feature_pixel_cov_area_ this) = true ->
  fd_gtb (median_of c) (unhealthy_feature_pixel_cov_area_ this) = true ->
  last_safe_pose_ (monitor (call this c)) = last_safe_pose_ this.
Proof.
  intros Hord Hbad.
  destruct (call_pose_cases norm this c) as [H|(_ & [Hlow _] & _)]; [exact H|].
  exfalso. unfold fd_gtb, gtb, fd_ltb in *.
  pose proof (ltb_trans _ _ _ Hbad Hlow) as Hlt.
  rewrite (leb_not_ltb _ _ Hord) in Hlt. discriminate.
Qed.

(** X17: with the limits in the expected order,
    [velocity_to_consider_static_ <= unhealthy_velocity_], a speed
    strictly above [unhealthy_velocity_] makes the cycle unhealthy
    whatever the samples are. *)
Theorem X17_fast_is_unhealthy
        (this : RovioHealthMonitor) (samples : list float) (o : StandardOutput) :
  leb (velocity_to_consider_static_ this) (unhealthy_velocity_ this) = true ->
  fd_gtb (speed norm o) (unhealthy_velocity_ this) = true ->
  classified_unhealthy this (samples, o) /\
  printed (call this (samples, o)) <> [] /\
  last_safe_pose_ (monitor (call this (samples, o))) = last_safe_pose_ this.
Proof.
  intros Hord Hfast.
  assert (Hc : classified_unhealthy this (samples, o)).
  { split; [|left; exact Hfast].
    unfold fd_gtb, gtb in *. cbn [snd].
    apply (leb_ltb_trans _ (unhealthy_velocity_ this)).
    - unfold leb, SFleb in Hord.
      destruct (velocity_to_consider_static_ this); try reflexivity.
      simpl in Hord. discriminate.
    - apply leb_not_ltb, Hord.
    - exact Hfast. }
  split; [exact Hc|].
  destruct (call_unhealthy norm this (samples, o) Hc) as (Hm & _ & rest & Hp).
  split; [rewrite Hp; discriminate|]. rewrite Hm. reflexivity.
Qed.

End Decision.

(** ** The further properties on concrete monitors and cycles *)

Lemma X1_witness :
  fst (run Eigen_norm default_monitor
           [fast_cycle; fast_cycle; fast_cycle; still_cycle 0 []; fast_cycle])
  = [false; false; true; false; false] /\
  num_subsequent_unhealthy_updates_
    (snd (run Eigen_norm default_monitor
              [fast_cycle; fast_cycle; fast_cycle; still_cycle 0 []; fast_cycle]))
  = 1.
Proof.
  destruct (X1_run_is_counter_machine
              Eigen_norm default_monitor O
              [fast_cycle; fast_cycle; fast_cycle; still_cycle 0 []; fast_cycle])
    as (H1 & H2 & _).
  - reflexivity.
  - vm_compute. discriminate.
  - split; [rewrite H1|rewrite H2]; vm_compute; reflexivity.
Defined.

Lemma X2_witness :
  returned (call Eigen_norm
                 (snd (run Eigen_norm default_monitor [fast_cycle; fast_cycle]))
                 fast_cycle) = true <->
  exists pre tail,
    [fast_cycle; fast_cycle] ++ [fast_cycle] = pre ++ tail /\
    length tail = 3%nat /\
    Forall (classified_unhealthy Eigen_norm default_monitor) tail.
Proof.
  apply (X2_reset_window Eigen_norm default_monitor 2%nat).
  - reflexivity.
  - reflexivity.
  - vm_compute. reflexivity.
Defined.

Lemma X3_witness : returned (call Eigen_norm hasty_monitor fast_cycle) = true.
Proof.
  apply X3_negative_limit.
  - vm_compute. reflexivity.
  - vm_compute. split; [discriminate|reflexivity].
  - apply fast_cycle_unhealthy; reflexivity.
Defined.

Lemma X5_witness :
  last_safe_pose_ (snd (run Eigen_norm default_monitor
                            (fast_cycle :: settling_cycles)))
  = last_safe_pose_ (snd (run Eigen_norm hasty_monitor
                              (fast_cycle :: settling_cycles))).
Proof.
  apply (X5_pose_independent_of_counter Eigen_norm default_monitor hasty_monitor).
  repeat split.
Defined.

Lemma X6_witness :
  returned (shouldResetEstimator Eigen_norm weary_monitor [float_of_Z 100] lost_output)
  = false /\
  num_subsequent_unhealthy_updates_
    (monitor (shouldResetEstimator Eigen_norm weary_monitor
                                   [float_of_Z 100] lost_output)) = 0.
Proof.
  destruct (X6_nan_speed_is_healthy Eigen_norm weary_monitor
                                    [float_of_Z 100] lost_output)
    as (_ & Hr & _ & Hz).
  - left. vm_compute. reflexivity.
  - split; assumption.
Defined.

Lemma X7_witness :
  last_safe_pose_
    (monitor (shouldResetEstimator Eigen_norm default_monitor
                                   [S754_nan] (output_at 3 0)))
  = last_safe_pose_ default_monitor.
Proof.
  apply (X7_nan_median Eigen_norm default_monitor [S754_nan] (output_at 3 0)).
  reflexivity.
Defined.

Lemma X8_witness :
  printed (shouldResetEstimator Eigen_norm weary_monitor [] (output_at 0 7))
  = [FaultCounter Int32.INT_MAX 2;
     WillReset (float_of_Z 7) (double_of_Z 6) fzero (double_of_Z 5)].
Proof.
  destruct (X8_printed_lines Eigen_norm weary_monitor [] (output_at 0 7)) as [H _].
  rewrite H. vm_compute. reflexivity.
Defined.

Lemma X10_witness :
  equiv (feature_pixel_cov_area_median_of [float_of_Z 3; float_of_Z 1; float_of_Z 2])
        (feature_pixel_cov_area_median_of [float_of_Z 2; float_of_Z 3; float_of_Z 1]).
Proof.
  apply X10_median_of_permutation.
  - repeat constructor.
  - apply (Permutation_cons_app [float_of_Z 2] [float_of_Z 1] (float_of_Z 3)).
    apply (Permutation_cons_app [float_of_Z 2] [] (float_of_Z 1)).
    apply Permutation_refl.
Defined.

Lemma X11_witness :
  ltb (float_of_Z 1) (feature_pixel_cov_area_median_of two_samples) = true <->
  (length two_samples - length two_samples / 2
   <= count_exceeding (float_of_Z 1) two_samples)%nat.
Proof.
  apply X11_median_exceeds_iff_majority.
  - discriminate.
  - repeat constructor.
Defined.

Lemma X12_witness :
  monitor (call Eigen_norm
                (monitor (call Eigen_norm default_monitor
                               (still_cycle 5 [float_lit 1 4])))
                (still_cycle 5 [float_lit 1 4]))
  = monitor (call Eigen_norm default_monitor (still_cycle 5 [float_lit 1 4])).
Proof.
  apply (X12_latching_is_idempotent Eigen_norm default_monitor
                                    (still_cycle 5 [float_lit 1 4])).
  - apply still_cycle_healthy. reflexivity.
  - split; vm_compute; reflexivity.
Defined.

Lemma X13_witness :
  last_safe_pose_ (monitor (call Eigen_norm default_monitor ([], output_at 4 0)))
  = {| failsafe_WrWB := WrWB (output_at 4 0);
       failsafe_qBW := qBW (output_at 4 0);
       feature_pixel_cov_area_median := fzero |}.
Proof.
  apply X13_no_samples_latches.
  - apply (still_cycle_healthy default_monitor 4 []). reflexivity.
  - exists false. reflexivity.
  - vm_compute. reflexivity.
  - vm_compute. reflexivity.
Defined.

Lemma X14_witness :
  is_finite (feature_pixel_cov_area_median
               (last_safe_pose_
                  (snd (run Eigen_norm weary_monitor
                            [still_cycle 1 [S754_nan]; still_cycle 2 [float_lit 1 4]]))))
  = true.
Proof.
  destruct (X14_retained_median_is_finite Eigen_norm) as [H _].
  apply H. reflexivity.
Defined.

Lemma X15_witness :
  fst (run Eigen_norm default_monitor [fast_cycle; still_cycle 1 []])
  = fst (run Eigen_norm
             (set_last_safe_pose (snapshot_pose (still_cycle 8 [])) default_monitor)
             [([], output_at 9 7); still_cycle 2 []]).
Proof.
  apply X15_decision_reads_samples_and_velocity.
  - repeat split.
  - reflexivity.
  - repeat constructor.
Defined.

Lemma X16_witness :
  last_safe_pose_ (monitor (call Eigen_norm default_monitor
                                 (still_cycle 1 [float_of_Z 6])))
  = last_safe_pose_ default_monitor.
Proof.
  apply X16_bad_median_is_never_latched; vm_compute; reflexivity.
Defined.

Lemma X17_witness : classified_unhealthy Eigen_norm default_monitor ([], output_at 0 7).
Proof.
  apply (X17_fast_is_unhealthy Eigen_norm default_monitor [] (output_at 0 7));
    vm_compute; reflexivity.
Defined.
